(** * Power BI chat front-end: name matching, intent detection, request
    parsing, schema search and answer extraction

    A shallow embedding of the deterministic core of [app_test5.py]:
    [fuzzy_match], [search_tables_and_columns], [detect_user_intent],
    [parse_measure_request] and the answer extraction and error mapping of
    [run_agent_once].

    Modelling conventions.
    - A Python [str] is a [string]; the text is taken to be ASCII, on which
      [str.lower], [str.upper], [str.strip] and the regular-expression
      classes used by the program are the functions defined below.
    - A Python [float] score is a rational [Q]: the program only produces the
      constants [1.0] and [0.9] and the similarity ratio, and only compares
      them.
    - [difflib.SequenceMatcher(None, a, b).ratio()] belongs to the Python
      library, not to the program: it is a parameter [ratio] of the matcher.
    - [list.sort(key=..., reverse=True)] is the stable sort of the Python
      library; it is modelled by a stable insertion sort, and
      [stable_sorted_unique] shows that the result of a stable sort is
      determined by its specification. *)

From Stdlib Require Import String Ascii List QArith Sorted Permutation Lia.
From stdpp Require Import base option list gmap strings.
Import ListNotations.

Local Open Scope string_scope.
Local Open Scope list_scope.

(** ** Python strings *)

Module PyStr.

(** [c.lower()] on one ASCII character. *)
Definition lower_ascii (c : ascii) : ascii :=
  let n := nat_of_ascii c in
  if (65 <=? n)%nat && (n <=? 90)%nat then ascii_of_nat (n + 32) else c.

(** [c.upper()] on one ASCII character. *)
Definition upper_ascii (c : ascii) : ascii :=
  let n := nat_of_ascii c in
  if (97 <=? n)%nat && (n <=? 122)%nat then ascii_of_nat (n - 32) else c.

(** [s.lower()] *)
Fixpoint lower (s : string) : string :=
  match s with
  | EmptyString => EmptyString
  | String c s' => String (lower_ascii c) (lower s')
  end.

(** [s.upper()] *)
Fixpoint upper (s : string) : string :=
  match s with
  | EmptyString => EmptyString
  | String c s' => String (upper_ascii c) (upper s')
  end.

(** [s.startswith(w)] *)
Fixpoint startswith (w s : string) : bool :=
  match w, s with
  | EmptyString, _ => true
  | String a w', String b s' => Ascii.eqb a b && startswith w' s'
  | String _ _, EmptyString => false
  end.

(** [w in s]: [w] occurs in [s] as a contiguous substring. *)
Fixpoint py_in (w s : string) : bool :=
  startswith w s ||
  match s with
  | EmptyString => false
  | String _ s' => py_in w s'
  end.

(** [any(w in s for w in ws)] *)
Definition any_in (ws : list string) (s : string) : bool :=
  existsb (fun w => py_in w s) ws.

(** The substring relation that [py_in] decides. *)
Definition Substring (w s : string) : Prop :=
  exists pre suf, s = pre +:+ w +:+ suf.

(** [c.isspace()] on one ASCII character: tab, line feed, vertical tab, form
    feed, carriage return, the four separators 28..31 and the space. *)
Definition isspace (c : ascii) : bool :=
  let n := nat_of_ascii c in
  ((9 <=? n)%nat && (n <=? 13)%nat) || ((28 <=? n)%nat && (n <=? 32)%nat).

(** [s.lstrip()] *)
Fixpoint lstrip (s : string) : string :=
  match s with
  | EmptyString => EmptyString
  | String c s' => if isspace c then lstrip s' else s
  end.

(** [s.rstrip()] *)
Fixpoint rstrip (s : string) : string :=
  match s with
  | EmptyString => EmptyString
  | String c s' =>
      match rstrip s' with
      | EmptyString => if isspace c then EmptyString else String c EmptyString
      | r => String c r
      end
  end.

(** [s.strip()] *)
Definition strip (s : string) : string := rstrip (lstrip s).

(** Truth value of a string: [bool(s)], false only for the empty string. *)
Definition truthy (s : string) : bool :=
  match s with EmptyString => false | String _ _ => true end.

(** [s[n:]] *)
Fixpoint drop_chars (n : nat) (s : string) : string :=
  match n, s with
  | O, _ => s
  | S _, EmptyString => EmptyString
  | S n', String _ s' => drop_chars n' s'
  end.

(** The scan of [s.replace(old, "")] for a non-empty [old]: [skip] counts the
    characters of an occurrence of [old] still to be dropped. *)
Fixpoint remove_scan (old : string) (skip : nat) (s : string) : string :=
  match s with
  | EmptyString => EmptyString
  | String c s' =>
      match skip with
      | S k => remove_scan old k s'
      | O =>
          if startswith old s
          then remove_scan old (String.length old - 1) s'
          else String c (remove_scan old 0 s')
      end
  end.

(** [s.replace(old, "")]: every occurrence of [old], found left to right
    without overlap, is removed; an empty [old] changes nothing. *)
Definition remove_all (old s : string) : string :=
  match old with
  | EmptyString => s
  | String _ _ => remove_scan old 0 s
  end.

(** [sep.join(parts)] *)
Fixpoint join (sep : string) (parts : list string) : string :=
  match parts with
  | [] => EmptyString
  | [p] => p
  | p :: rest => p +:+ sep +:+ join sep rest
  end.

End PyStr.
Import PyStr.

(** ** FuzzyMatcher: [fuzzy_match] *)

Inductive MatchType := Exact | Contains | Fuzzy.

(** One entry [{'name': .., 'score': .., 'match_type': ..}] of the result. *)
Record MatchResult := mkMatch {
  name : string;
  score : Q;
  match_type : MatchType
}.

(** [x['score'] < y['score']] *)
Definition score_lt (x y : MatchResult) : bool :=
  match (score x ?= score y)%Q with Lt => true | _ => false end.

(** Insertion of [x] in a list sorted by decreasing score, before the first
    entry whose score is not greater than the score of [x]. *)
Fixpoint insert_desc (x : MatchResult) (l : list MatchResult) : list MatchResult :=
  match l with
  | [] => [x]
  | y :: l' => if score_lt x y then y :: insert_desc x l' else x :: y :: l'
  end.

(** [matches.sort(key=lambda x: x['score'], reverse=True)] *)
Fixpoint sort_desc (l : list MatchResult) : list MatchResult :=
  match l with
  | [] => []
  | x :: l' => insert_desc x (sort_desc l')
  end.

(** [l] is sorted by non-increasing score. *)
Definition sorted_desc (l : list MatchResult) : Prop :=
  StronglySorted (fun a b => (score b <= score a)%Q) l.

(** The entries of [l] whose score is [s], in the order of [l]. *)
Definition with_score (s : Q) (l : list MatchResult) : list MatchResult :=
  List.filter (fun m => Qeq_bool (score m) s) l.

Section Matcher.

(** [SequenceMatcher(None, a, b).ratio()] *)
Variable ratio : string -> string -> Q.

(** The body of the [for option in options] loop: the entry the candidate
    [option] contributes, if any. *)
Definition match_option (query_lower : string) (threshold : Q) (option : string)
  : list MatchResult :=
  let option_lower := lower option in
  if String.eqb query_lower option_lower then
    [mkMatch option 1 Exact]
  else if py_in query_lower option_lower || py_in option_lower query_lower then
    [mkMatch option (9 # 10) Contains]
  else
    let r := ratio query_lower option_lower in
    if Qle_bool threshold r then [mkMatch option r Fuzzy] else [].

(** The list [matches] when the loop ends, before it is sorted: each
    iteration appends to it. *)
Definition collect (query : string) (options : list string) (threshold : Q)
  : list MatchResult :=
  let query_lower := lower query in
  fold_left (fun matches option => matches ++ match_option query_lower threshold option)
            options [].

Definition fuzzy_match (query : string) (options : list string) (threshold : Q)
  : list MatchResult :=
  sort_desc (collect query options threshold).

(** The criterion an entry [m] of the result meets for the query: one of the
    three tiers, each with its score. *)
Definition meets_criterion (query : string) (threshold : Q) (m : MatchResult) : Prop :=
  let q := lower query in
  let c := lower (name m) in
  (match_type m = Exact /\ score m = 1%Q /\ q = c)
  \/ (match_type m = Contains /\ score m = (9 # 10)%Q /\ q <> c
      /\ (Substring q c \/ Substring c q))
  \/ (match_type m = Fuzzy /\ score m = ratio q c /\ (threshold <= score m)%Q
      /\ q <> c /\ ~ Substring q c /\ ~ Substring c q).

End Matcher.

(** The default [threshold=0.6]. *)
Definition default_threshold : Q := 6 # 10.

(** A similarity ratio for the examples: the examples below never reach the
    similarity tier, so its value plays no part in them. *)
Definition no_similarity (a b : string) : Q := 0.

(** ** [fuzzy_match] on Python list objects

    In the program [options] and [matches] are references to mutable list
    objects.  This section runs the same statements on a store of list
    objects, to account for what the function writes to. *)

Module Store.

Inductive pyobj :=
| StrList (l : list string)
| MatchList (l : list MatchResult).

(** The store maps a reference to the list object it denotes. *)
Abbreviation store := (gmap nat pyobj).

(** A statement: it fails on a reference of the wrong type ([None]) or returns
    a value and the store it leaves. *)
Definition Stmt (A : Type) : Type := store -> option (A * store).

Definition ret {A} (a : A) : Stmt A := fun h => Some (a, h).

Definition bind {A B} (m : Stmt A) (k : A -> Stmt B) : Stmt B :=
  fun h => match m h with
           | Some (a, h') => k a h'
           | None => None
           end.

Notation "'do' x <- m ;; k" := (bind m (fun x => k))
  (at level 10, x name, m at level 99, k at level 200).
Notation "'run' m ;; k" := (bind m (fun _ => k))
  (at level 10, m at level 99, k at level 200).

(** [matches = []]: a new list object at a reference not in use. *)
Definition new_list : Stmt nat :=
  fun h => let l := fresh (dom h) in Some (l, <[l := MatchList []]> h).

(** [matches.append(m)] *)
Definition append (matches : nat) (m : MatchResult) : Stmt unit :=
  fun h => match h !! matches with
           | Some (MatchList ms) => Some (tt, <[matches := MatchList (ms ++ [m])]> h)
           | _ => None
           end.

(** [matches.sort(key=lambda x: x['score'], reverse=True)], in place. *)
Definition sort (matches : nat) : Stmt unit :=
  fun h => match h !! matches with
           | Some (MatchList ms) => Some (tt, <[matches := MatchList (sort_desc ms)]> h)
           | _ => None
           end.

(** One step of the list iterator of [for option in options]: the element at
    index [i] of the list object as it is now, or [None] past its end. *)
Definition next (options : nat) (i : nat) : Stmt (option string) :=
  fun h => match h !! options with
           | Some (StrList xs) => Some (xs !! i, h)
           | _ => None
           end.

Section Matcher.

Variable ratio : string -> string -> Q.

(** The loop body, on the list object [matches]. *)
Definition loop_body (query_lower : string) (threshold : Q) (matches : nat)
    (option : string) : Stmt unit :=
  let option_lower := lower option in
  if String.eqb query_lower option_lower then
    append matches (mkMatch option 1 Exact)
  else if py_in query_lower option_lower || py_in option_lower query_lower then
    append matches (mkMatch option (9 # 10) Contains)
  else
    let r := ratio query_lower option_lower in
    if Qle_bool threshold r then append matches (mkMatch option r Fuzzy)
    else ret tt.

(** [for option in options: ...] from index [i] on, for at most [fuel]
    iterations. *)
Fixpoint for_options (fuel : nat) (options : nat) (i : nat)
    (body : string -> Stmt unit) : Stmt unit :=
  match fuel with
  | O => ret tt
  | S fuel' =>
      do o <- next options i ;;
      match o with
      | None => ret tt
      | Some option => run body option ;; for_options fuel' options (S i) body
      end
  end.

(** [fuzzy_match(query, options, threshold)] with [options] a reference; the
    result is the reference of the list it returns. *)
Definition fuzzy_match (fuel : nat) (query : string) (options : nat) (threshold : Q)
  : Stmt nat :=
  do matches <- new_list ;;
  let query_lower := lower query in
  run for_options fuel options 0 (loop_body query_lower threshold matches) ;;
  run sort matches ;;
  ret matches.

End Matcher.

End Store.

(** ** IntentClassifier: [detect_user_intent] *)

Definition show_keywords : list string :=
  ["show"; "display"; "view"; "get"; "what is"; "tell me"; "give me"].
Definition create_keywords : list string :=
  ["create"; "add"; "make"; "build"; "new"].
Definition update_keywords : list string :=
  ["update"; "modify"; "change"; "edit"].
Definition delete_keywords : list string :=
  ["delete"; "remove"; "drop"].

Definition detect_user_intent (user_input : string) : string :=
  let lower := lower user_input in
  if any_in show_keywords lower then "show"
  else if any_in create_keywords lower then "create"
  else if any_in update_keywords lower then "update"
  else if any_in delete_keywords lower then "delete"
  else "unknown".

(** The lower-cased utterance contains one of the keywords. *)
Definition mentions (keywords : list string) (user_input : string) : Prop :=
  exists w, In w keywords /\ Substring w (lower user_input).

(** ** MeasureRequestParser: [parse_measure_request] *)

(** The class [[A-Za-z_]] of the pattern. *)
Definition is_ident_start (c : ascii) : bool :=
  let n := nat_of_ascii c in
  ((65 <=? n)%nat && (n <=? 90)%nat) || ((97 <=? n)%nat && (n <=? 122)%nat)
  || (n =? 95)%nat.

(** The class [\w] of the pattern. *)
Definition is_word (c : ascii) : bool :=
  let n := nat_of_ascii c in
  is_ident_start c || ((48 <=? n)%nat && (n <=? 57)%nat).

(** The longest prefix of word characters, and what follows it: what a greedy
    repetition of [\w] takes. *)
Fixpoint span_word (s : string) : string * string :=
  match s with
  | EmptyString => (EmptyString, EmptyString)
  | String c s' =>
      if is_word c then let (w, r) := span_word s' in (String c w, r)
      else (EmptyString, s)
  end.

(** A match of the pattern that starts at the first character of [s], and its
    two groups.  The pattern is: one character of [[A-Za-z_]] and any number
    of [\w] (group 1), an opening bracket, one or more [\w] (group 2), a
    closing bracket.  The character after a greedy run of [\w] must be a
    bracket, which is not in [\w], so a shorter run never matches. *)
Definition match_here (s : string) : option (string * string) :=
  match s with
  | EmptyString => None
  | String c _ =>
      if is_ident_start c then
        let (g1, r) := span_word s in
        if startswith "[" r then
          let (g2, r2) := span_word (drop_chars 1 r) in
          if truthy g2 && startswith "]" r2 then Some (g1, g2) else None
        else None
      else None
  end.

(** [re.search(pattern, s, re.IGNORECASE)]: the groups of the leftmost
    match. *)
Fixpoint re_search (s : string) : option (string * string) :=
  match match_here s with
  | Some g => Some g
  | None =>
      match s with
      | EmptyString => None
      | String _ s' => re_search s'
      end
  end.

(** Every character of [s] is in [\w]. *)
Fixpoint all_word (s : string) : bool :=
  match s with
  | EmptyString => true
  | String c s' => is_word c && all_word s'
  end.

(** [s] is empty or begins with a character that is not in [\w]. *)
Definition word_stops (s : string) : bool :=
  match s with
  | EmptyString => true
  | String c _ => negb (is_word c)
  end.

(** The two groups of a string the pattern matches: the first is a character
    of [[A-Za-z_]] followed by characters of [\w], the second is one or more
    characters of [\w]. *)
Definition well_formed_groups (g1 g2 : string) : Prop :=
  (exists c w, g1 = String c w /\ is_ident_start c = true /\ all_word w = true)
  /\ g2 <> EmptyString /\ all_word g2 = true.

(** The language of the pattern: [s] begins with a match whose groups are
    [g1] and [g2]. *)
Definition matches_at_start (s g1 g2 : string) : Prop :=
  well_formed_groups g1 g2
  /\ exists post, s = g1 +:+ "[" +:+ g2 +:+ "]" +:+ post.

Record MeasureRequest := mkRequest {
  operation : option string;
  table : option string;
  column : option string;
  has_explicit_syntax : bool
}.

Definition detect_operation (lower : string) : option string :=
  if any_in ["total"; "sum"] lower then Some "SUM"
  else if any_in ["average"; "avg"; "mean"] lower then Some "AVERAGE"
  else if any_in ["count"; "number"] lower then Some "COUNT"
  else if any_in ["unique"; "distinct"] lower then Some "DISTINCTCOUNT"
  else if any_in ["min"; "minimum"] lower then Some "MIN"
  else if any_in ["max"; "maximum"] lower then Some "MAX"
  else None.

Definition parse_measure_request (user_input : string) : MeasureRequest :=
  let lower := lower user_input in
  let op := detect_operation lower in
  let m := re_search user_input in
  {| operation := op;
     table := match m with Some (g1, _) => Some g1 | None => None end;
     column := match m with Some (_, g2) => Some g2 | None => None end;
     has_explicit_syntax := match m with Some _ => true | None => false end |}.

(** ** Exceptions *)

(** What a call evaluates to: it returns a value, or raises an exception
    [e], kept as its text [str(e)]. *)
Inductive Outcome (A : Type) :=
| Returned (a : A)
| Raised (e : string).
Arguments Returned {A} a.
Arguments Raised {A} e.

(** What an awaited call does, as the two handlers [except Exception] of the
    search see it: it returns or raises an [Exception], an [Outcome]; or it
    raises an exception that is not an [Exception], for instance the
    [asyncio.CancelledError] of a cancelled task or a [KeyboardInterrupt],
    both of class [BaseException] only; [e] is the text of that exception. *)
Inductive Awaited (A : Type) :=
| Completes (o : Outcome A)
| Interrupted (e : string).
Arguments Completes {A} o.
Arguments Interrupted {A} e.

(** ** SchemaSearchService: [search_tables_and_columns] *)

Module SchemaSearch.

(** The value of [await list_tool.ainvoke({})]: a dict, of which only the
    presence and the value of the keys ['tables'] and ['columns'] matter, or
    a value that is not a dict. *)
Inductive SchemaValue :=
| SchemaDict (tables columns : option (list string))
| SchemaOther.

(** A tool of the external server: its [name], and what invoking it with no
    argument does. *)
Record Tool := mkTool {
  tool_name : string;
  ainvoke : Awaited SchemaValue
}.

(** The dict [result]. *)
Record SearchResult := mkResult {
  tables : list string;
  columns : list string;
  table_matches : list MatchResult;
  column_matches : list MatchResult
}.

Definition empty_result : SearchResult := mkResult [] [] [] [].

(** A block of statements that update the dict [result] in place and may
    raise: what the dict holds when an exception leaves the block stays. *)
Definition Block (A : Type) : Type := SearchResult -> Awaited A * SearchResult.

Definition ret {A} (a : A) : Block A := fun r => (Completes (Returned a), r).

Definition bind {A B} (m : Block A) (k : A -> Block B) : Block B :=
  fun r => match m r with
           | (Completes (Returned a), r') => k a r'
           | (Completes (Raised e), r') => (Completes (Raised e), r')
           | (Interrupted e, r') => (Interrupted e, r')
           end.

Notation "'do' x <- m ;; k" := (bind m (fun x => k))
  (at level 10, x name, m at level 99, k at level 200).
Notation "'run' m ;; k" := (bind m (fun _ => k))
  (at level 10, m at level 99, k at level 200).

(** [await f(...)] for an external call that does [o]. *)
Definition await {A} (o : Awaited A) : Block A := fun r => (o, r).

(** [try: body except Exception as e: handler(e)]: the handler runs for an
    [Exception]; an exception that is not one leaves the block. *)
Definition try_except (body : Block unit) (handler : string -> Block unit) : Block unit :=
  fun r => match body r with
           | (Completes (Returned a), r') => (Completes (Returned a), r')
           | (Completes (Raised e), r') => handler e r'
           | (Interrupted e, r') => (Interrupted e, r')
           end.

(** [print(...)]: no effect on [result]. *)
Definition print (text : string) : Block unit := ret tt.

Definition get : Block SearchResult := fun r => (Completes (Returned r), r).

(** [result['tables'] = v] and the three other assignments. *)
Definition set_tables (v : list string) : Block unit :=
  fun r => (Completes (Returned tt), mkResult v (columns r) (table_matches r) (column_matches r)).
Definition set_columns (v : list string) : Block unit :=
  fun r => (Completes (Returned tt), mkResult (tables r) v (table_matches r) (column_matches r)).
Definition set_table_matches (v : list MatchResult) : Block unit :=
  fun r => (Completes (Returned tt), mkResult (tables r) (columns r) v (column_matches r)).
Definition set_column_matches (v : list MatchResult) : Block unit :=
  fun r => (Completes (Returned tt), mkResult (tables r) (columns r) (table_matches r) v).

Definition schema_keywords : list string :=
  ["list"; "get"; "schema"; "tables"; "describe"].

(** The loop that looks for [list_tool]: the first tool whose lower-cased
    name contains a keyword. *)
Fixpoint find_list_tool (tools : list Tool) : option Tool :=
  match tools with
  | [] => None
  | tool :: rest =>
      let tool_name_lower := lower (tool_name tool) in
      if any_in schema_keywords tool_name_lower then Some tool
      else find_list_tool rest
  end.

(** Truth value of an [Optional[str]] query: false for [None] and for the
    empty string. *)
Definition query_given (q : option string) : bool :=
  match q with
  | Some s => truthy s
  | None => false
  end.

(** Truth value of a list: false only for the empty list. *)
Definition nonempty {A} (l : list A) : bool :=
  match l with [] => false | _ :: _ => true end.

Section Search.

Variable ratio : string -> string -> Q.

(** The statements inside the outer [try]; [mcp_session] stands for what
    [await load_mcp_tools(mcp_session)] does. *)
Definition search_body (mcp_session : Awaited (list Tool))
    (table_query column_query : option string) : Block unit :=
  do tools <- await mcp_session ;;
  let list_tool := find_list_tool tools in
  run match list_tool with
      | Some tool =>
          try_except
            (do schema_result <- await (ainvoke tool) ;;
             match schema_result with
             | SchemaDict ts cs =>
                 run match ts with Some v => set_tables v | None => ret tt end ;;
                 match cs with Some v => set_columns v | None => ret tt end
             | SchemaOther => ret tt
             end)
            (fun e => print ("[DEBUG] Could not fetch schema: " +:+ e))
      | None => ret tt
      end ;;
  do result <- get ;;
  run (if query_given table_query && nonempty (tables result)
       then set_table_matches
              (fuzzy_match ratio (default "" table_query) (tables result) default_threshold)
       else ret tt) ;;
  do result <- get ;;
  if query_given column_query && nonempty (columns result)
  then set_column_matches
         (fuzzy_match ratio (default "" column_query) (columns result) default_threshold)
  else ret tt.

(** The function: it starts from the empty dict, runs the body under the
    outer [try] and returns the dict, unless an exception leaves the [try]. *)
Definition search_tables_and_columns (mcp_session : Awaited (list Tool))
    (table_query column_query : option string) : Awaited SearchResult :=
  let (o, result) :=
    try_except (search_body mcp_session table_query column_query)
      (fun e => print ("[DEBUG] Error in search_tables_and_columns: " +:+ e))
      empty_result in
  match o with
  | Completes (Returned _) => Completes (Returned result)
  | Completes (Raised e) => Completes (Raised e)
  | Interrupted e => Interrupted e
  end.

(** An exception that no handler of the search catches is raised with the
    text [e] at one of its two awaits: by the loading of the tools, or by the
    invocation of the tool that was chosen. *)
Definition interrupted_at (mcp_session : Awaited (list Tool)) (e : string) : Prop :=
  mcp_session = Interrupted e
  \/ exists tools tool,
       mcp_session = Completes (Returned tools)
       /\ find_list_tool tools = Some tool
       /\ ainvoke tool = Interrupted e.

End Search.

End SchemaSearch.

(** ** AgentRunner: [run_agent_once] *)

Module AgentRunner.

(** An element of a list-valued [content]. *)
Inductive Item :=
| ItemDictText (text : string)   (* a dict with a ['text'] key *)
| ItemDict (repr : string)       (* a dict without it; [repr] is its [str()] *)
| ItemStr (s : string)           (* a string *)
| ItemOther (repr : string).     (* any other value; [repr] is its [str()] *)

Inductive Content :=
| ContentStr (s : string)
| ContentList (items : list Item)
| ContentOther.

(** A message of the agent: the name of its class, and its [content]
    attribute when it has one. *)
Record Message := mkMessage {
  type_name : string;
  content : option Content
}.

(** The agent: from the enhanced input and the thread id to the list
    [result.get("messages", [])], unless [agent.ainvoke] raises. *)
Definition Agent : Type := string -> string -> Outcome (list Message).

Definition nl : string := String (ascii_of_nat 10) EmptyString.

Definition no_response : string := "No response received.".
Definition success_placeholder : string := "✓ Operation completed successfully.".
Definition not_found_message : string :=
  "❌ Table/column not found. Please verify the exact name in your Power BI model.".
Definition syntax_message : string := "❌ DAX syntax error. Please check the formula.".
Definition too_long_message : string :=
  "❌ Request too long. Please simplify or break into smaller parts.".
Definition failure_marker : string := "❌ Error: ".

(** [f"{v}"] for an optional string. *)
Definition fmt (v : option string) : string := default "None" v.

(** The list [hints]. *)
Definition build_hints (user_input : string) : list string :=
  let intent := detect_user_intent user_input in
  let info := parse_measure_request user_input in
  (if String.eqb intent "unknown" then []
   else ["[Intent: " +:+ upper intent +:+ "]"])
  ++ (match operation info with
      | Some op => if truthy op then ["[Operation: " +:+ op +:+ "]"] else []
      | None => []
      end)
  ++ (if has_explicit_syntax info
      then ["[Explicit: " +:+ fmt (table info) +:+ "[" +:+ fmt (column info) +:+ "]]";
            "[High confidence - execute directly]"]
      else ["[Search for table/column names before asking user]"]).

(** [for hint in hints: cleaned = cleaned.replace(hint, "")] *)
Definition clean_hints (hints : list string) (text : string) : string :=
  fold_left (fun cleaned hint => remove_all hint cleaned) hints text.

Definition is_assistant (m : Message) : bool :=
  String.eqb (type_name m) "AIMessage" || String.eqb (type_name m) "AssistantMessage".

(** The list [texts] built from a list-valued content. *)
Fixpoint collect_texts (items : list Item) : list string :=
  match items with
  | [] => []
  | ItemDictText t :: rest => t :: collect_texts rest
  | ItemStr s :: rest => s :: collect_texts rest
  | _ :: rest => collect_texts rest
  end.

(** The loop [for msg in reversed(all_messages)], on the reversed list: the
    answer it returns, [None] when it ends without returning. Reading
    [msg.content] on a message without that attribute raises. *)
Fixpoint scan_messages (hints : list string) (reversed : list Message)
  : Outcome (option string) :=
  match reversed with
  | [] => Returned None
  | msg :: rest =>
      if is_assistant msg then
        match content msg with
        | None =>
            Raised ("'" +:+ type_name msg +:+ "' object has no attribute 'content'")
        | Some (ContentStr s) =>
            if truthy (strip s) then Returned (Some (strip (clean_hints hints s)))
            else scan_messages hints rest
        | Some (ContentList items) =>
            let texts := collect_texts items in
            if SchemaSearch.nonempty texts then
              let result_text := join nl (List.filter (fun t => truthy (strip t)) texts) in
              Returned (Some (strip (clean_hints hints result_text)))
            else scan_messages hints rest
        | Some ContentOther => scan_messages hints rest
        end
      else scan_messages hints rest
  end.

(** [str(item.get('text', item)) if isinstance(item, dict) else str(item)] *)
Definition item_str (item : Item) : string :=
  match item with
  | ItemDictText t => t
  | ItemDict r => r
  | ItemStr s => s
  | ItemOther r => r
  end.

(** The statements after the loop, under the comment [# Fallback]. *)
Definition fallback (last_msg : Message) : string :=
  match content last_msg with
  | Some (ContentStr s) =>
      if truthy (strip s) then s else success_placeholder
  | Some (ContentList items) =>
      let text := join " " (map item_str items) in
      if truthy (strip text) then text else success_placeholder
  | Some ContentOther => success_placeholder
  | None => success_placeholder
  end.

(** The statements of the [try] block that follow the call of the agent. *)
Definition extract_response (hints : list string) (all_messages : list Message)
  : Outcome string :=
  match last all_messages with
  | None => Returned no_response
  | Some last_msg =>
      match scan_messages hints (rev all_messages) with
      | Raised e => Raised e
      | Returned (Some answer) => Returned answer
      | Returned None => Returned (fallback last_msg)
      end
  end.

(** The [except Exception as e] block. *)
Definition classify_error (e : string) : string :=
  let error := lower e in
  if py_in "not found" error || py_in "does not exist" error then not_found_message
  else if py_in "syntax" error then syntax_message
  else if py_in "context" error || py_in "token" error then too_long_message
  else failure_marker +:+ e.

(** The text sent to the agent. *)
Definition enhance (user_input : string) : string :=
  user_input +:+ nl +:+ join " " (build_hints user_input).

(** What the [try] block evaluates to. *)
Definition try_block (agent : Agent) (user_input thread_id : string) : Outcome string :=
  match agent (enhance user_input) thread_id with
  | Raised e => Raised e
  | Returned all_messages => extract_response (build_hints user_input) all_messages
  end.

Definition run_agent_once (agent : Agent) (user_input thread_id : string) : string :=
  match try_block agent user_input thread_id with
  | Returned answer => answer
  | Raised e => classify_error e
  end.

End AgentRunner.

(** ** ChatSessionStore and the chat endpoint *)

Module ChatStore.

(** One [{'role': .., 'content': ..}] of a transcript. *)
Record ChatMessage := mkChatMessage {
  role : string;
  content : string
}.

(** One value of the dict [chat_sessions]. *)
Record ChatSession := mkSession {
  id : string;
  title : string;
  created_at : string;
  messages : list ChatMessage
}.

(** The dict [chat_sessions]: its items in insertion order. *)
Definition Sessions : Type := list (string * ChatSession).

(** [d.get(k)]: [None] when [k not in d]. *)
Fixpoint lookup (k : string) (d : Sessions) : option ChatSession :=
  match d with
  | [] => None
  | (k', v) :: rest => if String.eqb k k' then Some v else lookup k rest
  end.

(** [k in d] *)
Definition contains (k : string) (d : Sessions) : bool :=
  match lookup k d with Some _ => true | None => false end.

(** [d[k] = v]: the value of a key that is there is replaced where it
    stands, a new key goes last. *)
Fixpoint assign (k : string) (v : ChatSession) (d : Sessions) : Sessions :=
  match d with
  | [] => [(k, v)]
  | (k', v') :: rest =>
      if String.eqb k k' then (k', v) :: rest else (k', v') :: assign k v rest
  end.

(** [del d[k]] *)
Fixpoint remove (k : string) (d : Sessions) : Sessions :=
  match d with
  | [] => []
  | (k', v) :: rest =>
      if String.eqb k k' then remove k rest else (k', v) :: remove k rest
  end.

(** A change made in place to the dict [d[k]]. *)
Fixpoint update (k : string) (f : ChatSession -> ChatSession) (d : Sessions) : Sessions :=
  match d with
  | [] => []
  | (k', v) :: rest =>
      if String.eqb k k' then (k', f v) :: rest else (k', v) :: update k f rest
  end.

(** [s[:n]] *)
Fixpoint take_chars (n : nat) (s : string) : string :=
  match n, s with
  | O, _ => EmptyString
  | S _, EmptyString => EmptyString
  | S n', String c s' => String c (take_chars n' s')
  end.

(** [user_input[:50] + ('...' if len(user_input) > 50 else '')] *)
Definition session_title (user_input : string) : string :=
  take_chars 50 user_input
  +:+ (if (50 <? String.length user_input)%nat then "..." else "").

(** [description[:100] + "..." if len(description) > 100 else description],
    the new value of a tool description in [lifespan]. *)
Definition truncate_description (description : string) : string :=
  if (100 <? String.length description)%nat
  then take_chars 100 description +:+ "..."
  else description.

(** What a route returns. *)
Inductive Reply :=
| ReplyId (session_id : string)       (* [{'id': session_id}] *)
| ReplyChat (chat : ChatSession)      (* the stored session *)
| ReplySuccess                        (* [{"success": True}] *)
| ReplyError (error : string).        (* [{"error": ..}] *)

(** [create_new_chat()]; [session_id] stands for [str(uuid.uuid4())] and
    [now] for [datetime.now().isoformat()]. *)
Definition create_new_chat (session_id now : string) (chat_sessions : Sessions)
  : Sessions * Reply :=
  (assign session_id (mkSession session_id "New Chat" now []) chat_sessions,
   ReplyId session_id).

Definition get_chat (session_id : string) (chat_sessions : Sessions) : Reply :=
  match lookup session_id chat_sessions with
  | Some chat => ReplyChat chat
  | None => ReplyError "Chat not found"
  end.

Definition delete_chat (session_id : string) (chat_sessions : Sessions)
  : Sessions * Reply :=
  if contains session_id chat_sessions
  then (remove session_id chat_sessions, ReplySuccess)
  else (chat_sessions, ReplyError "Chat not found").

(** One [chat_item] of [get_chats]. *)
Record ChatItem := mkItem {
  item_id : string;
  item_title : string;
  item_created_at : string;
  message_count : nat
}.

(** What [get_chats] returns. *)
Record ChatLists := mkLists {
  today : list ChatItem;
  previous_7_days : list ChatItem;
  previous_30_days : list ChatItem
}.

(** [x['created_at'] < y['created_at']] on strings. *)
Definition created_before (x y : ChatItem) : bool :=
  String.ltb (item_created_at x) (item_created_at y).

Fixpoint insert_item (x : ChatItem) (l : list ChatItem) : list ChatItem :=
  match l with
  | [] => [x]
  | y :: l' => if created_before x y then y :: insert_item x l' else x :: y :: l'
  end.

(** [sorted(items, key=lambda x: x['created_at'], reverse=True)] *)
Fixpoint sorted_newest_first (l : list ChatItem) : list ChatItem :=
  match l with
  | [] => []
  | x :: l' => insert_item x (sorted_newest_first l')
  end.

Definition chat_item (session_id : string) (chat_data : ChatSession) : ChatItem :=
  mkItem session_id (title chat_data) (created_at chat_data)
         (length (messages chat_data)).

Section Chats.

(** [(now - datetime.fromisoformat(created_at)).days] for the [now] of the
    call. *)
Variable age_days : string -> Z.

(** The body of the loop over [chat_sessions.items()], on the three lists. *)
Definition place_chat (lists : ChatLists) (entry : string * ChatSession) : ChatLists :=
  let (session_id, chat_data) := entry in
  let days := age_days (created_at chat_data) in
  let item := chat_item session_id chat_data in
  if (days =? 0)%Z then
    mkLists (today lists ++ [item]) (previous_7_days lists) (previous_30_days lists)
  else if (days <=? 7)%Z then
    mkLists (today lists) (previous_7_days lists ++ [item]) (previous_30_days lists)
  else if (days <=? 30)%Z then
    mkLists (today lists) (previous_7_days lists) (previous_30_days lists ++ [item])
  else lists.

Definition get_chats (chat_sessions : Sessions) : ChatLists :=
  let lists := fold_left place_chat chat_sessions (mkLists [] [] []) in
  mkLists (sorted_newest_first (today lists))
          (sorted_newest_first (previous_7_days lists))
          (sorted_newest_first (previous_30_days lists)).

End Chats.

(** What the client sends: the dict [data], read through its [type]. *)
Inductive ClientData :=
| SetSession (session_id : option string)   (* type "set_session" *)
| UserMessage (content : option string)     (* type "message" *)
| OtherData.                                (* any other type, or none *)

(** What is sent to the client with [send_json]. *)
Inductive ServerMessage :=
| SendResponse (content : string)
| SendError (content : string).

(** The state of one connection: the dict of sessions, which all connections
    share, the session the connection is on, and what was sent on it. *)
Record Connection := mkConnection {
  chat_sessions : Sessions;
  current_session_id : option string;
  sent : list ServerMessage
}.

(** [chat_sessions[sid]['messages'].append({'role': r, 'content': c})] *)
Definition append_message (r c : string) (chat : ChatSession) : ChatSession :=
  mkSession (id chat) (title chat) (created_at chat)
            (messages chat ++ [mkChatMessage r c]).

(** [chat_sessions[sid]['title'] = t] *)
Definition set_title (t : string) (chat : ChatSession) : ChatSession :=
  mkSession (id chat) t (created_at chat) (messages chat).

(** [len(chat_sessions[sid]['messages'])] *)
Definition transcript_length (sid : string) (d : Sessions) : nat :=
  match lookup sid d with
  | Some chat => length (messages chat)
  | None => 0
  end.

(** One turn of the [while True] loop of [websocket_endpoint], for the
    received [data]; [now] stands for [datetime.now().isoformat()].  The turn
    runs without another request changing [chat_sessions] while the agent is
    awaited, and [send_json] succeeds. *)
Definition handle_data (agent : AgentRunner.Agent) (now : string)
    (conn : Connection) (data : ClientData) : Connection :=
  match data with
  | SetSession session_id =>
      mkConnection (chat_sessions conn) session_id (sent conn)
  | UserMessage content =>
      let user_input := strip (default "" content) in
      match current_session_id conn with
      | Some sid =>
          if negb (truthy user_input) || negb (truthy sid) then conn
          else
            let d0 := chat_sessions conn in
            let d1 :=
              if contains sid d0 then d0
              else assign sid (mkSession sid (session_title user_input) now []) d0 in
            let d2 := update sid (append_message "user" user_input) d1 in
            let response := AgentRunner.run_agent_once agent user_input sid in
            let d3 := update sid (append_message "assistant" response) d2 in
            let d4 :=
              if (transcript_length sid d3 =? 2)%nat
              then update sid (set_title (session_title user_input)) d3
              else d3 in
            mkConnection d4 (Some sid) (sent conn ++ [SendResponse response])
      | None => conn
      end
  | OtherData => conn
  end.


End ChatStore.

(** ** Definitions for the statements of the properties *)

(** An entry survives a threshold [t] when it is not a fuzzy match or its
    score reaches [t]. *)
Definition survives (t : Q) (m : MatchResult) : bool :=
  match match_type m with
  | Fuzzy => Qle_bool t (score m)
  | _ => true
  end.

(** A similarity ratio for the examples of the similarity tier: every pair of
    strings is given the ratio 0.7. *)
Definition flat_similarity (a b : string) : Q := 7 # 10.

Definition search_hint : string := "[Search for table/column names before asking user]".
Definition confident_hint : string := "[High confidence - execute directly]".

(** [s] is empty or begins with a character that is not white space. *)
Definition starts_clean (s : string) : bool :=
  match s with
  | EmptyString => true
  | String c _ => negb (isspace c)
  end.

(** The lower-cased name of the tool contains a schema keyword. *)
Definition is_schema_tool (tool : SchemaSearch.Tool) : Prop :=
  exists w, In w SchemaSearch.schema_keywords
            /\ Substring w (lower (SchemaSearch.tool_name tool)).

(** The transcript stored under an id, empty when nothing is stored. *)
Definition transcript (sid : string) (d : ChatStore.Sessions) : list ChatStore.ChatMessage :=
  match ChatStore.lookup sid d with
  | Some chat => ChatStore.messages chat
  | None => []
  end.

(** An agent for the examples: it answers every input with one assistant
    message. *)
Definition polite_agent : AgentRunner.Agent :=
  fun _ _ => Returned [AgentRunner.mkMessage "AIMessage"
                         (Some (AgentRunner.ContentStr "Done."))].

(** [x] is not older than [y]: the order of a list sorted newest first. *)
Definition not_older (x y : ChatStore.ChatItem) : Prop :=
  ChatStore.created_before x y = false.

(** * Properties *)

(** ** Strings *)

Lemma startswith_spec (w s : string) :
  startswith w s = true <-> exists suf, s = w +:+ suf.
Proof.
  revert s. induction w as [|a w IH]; intros s; simpl.
  - split; [intros _; exists s; reflexivity | reflexivity].
  - destruct s as [|b s].
    + split; [discriminate | intros [suf H]; discriminate].
    + rewrite andb_true_iff, IH. split.
      * intros [Hab [suf ->]]. apply Ascii.eqb_eq in Hab. subst b.
        exists suf. reflexivity.
      * intros [suf H]. injection H as -> ->. split.
        -- apply Ascii.eqb_refl.
        -- exists suf. reflexivity.
Qed.

Lemma py_in_spec (w s : string) : py_in w s = true <-> Substring w s.
Proof.
  unfold Substring. induction s as [|c s IH]; simpl.
  - rewrite orb_false_r, startswith_spec. split.
    + intros [suf H]. exists EmptyString, suf. exact H.
    + intros [pre [suf H]]. destruct pre; [exists suf; exact H | discriminate].
  - rewrite orb_true_iff, startswith_spec, IH. split.
    + intros [[suf H] | [pre [suf H]]].
      * exists EmptyString, suf. exact H.
      * exists (String c pre), suf. simpl. rewrite H. reflexivity.
    + intros [pre [suf H]]. destruct pre as [|a pre].
      * left. exists suf. exact H.
      * right. simpl in H. injection H as -> H. exists pre, suf. exact H.
Qed.

Lemma py_in_false (w s : string) : py_in w s = false <-> ~ Substring w s.
Proof.
  rewrite <- py_in_spec. destruct (py_in w s); split; congruence.
Qed.

Lemma any_in_spec (ws : list string) (s : string) :
  any_in ws s = true <-> exists w, In w ws /\ Substring w s.
Proof.
  unfold any_in. rewrite existsb_exists.
  split; intros [w [Hin H]]; exists w; split; auto; apply py_in_spec; exact H.
Qed.

Lemma any_in_false (ws : list string) (s : string) :
  any_in ws s = false <-> ~ exists w, In w ws /\ Substring w s.
Proof.
  rewrite <- any_in_spec. destruct (any_in ws s); split; congruence.
Qed.

Lemma py_in_empty (s : string) : py_in EmptyString s = true.
Proof. destruct s; reflexivity. Qed.

Lemma lower_empty_iff (s : string) : lower s = EmptyString <-> s = EmptyString.
Proof. destruct s; simpl; split; congruence. Qed.

(** ** The stable sort by decreasing score *)

Lemma score_lt_true (x y : MatchResult) : score_lt x y = true -> (score x < score y)%Q.
Proof.
  unfold score_lt. destruct (score x ?= score y)%Q eqn:E; try discriminate.
  intros _. apply Qlt_alt. exact E.
Qed.

Lemma score_lt_false (x y : MatchResult) : score_lt x y = false -> (score y <= score x)%Q.
Proof.
  unfold score_lt. destruct (score x ?= score y)%Q eqn:E; try discriminate; intros _.
  - apply Qeq_alt in E. rewrite E. apply Qle_refl.
  - apply Qgt_alt in E. apply Qlt_le_weak. exact E.
Qed.

Lemma insert_desc_perm (x : MatchResult) (l : list MatchResult) :
  Permutation (insert_desc x l) (x :: l).
Proof.
  induction l as [|y l IH]; simpl.
  - reflexivity.
  - destruct (score_lt x y).
    + rewrite IH. apply perm_swap.
    + reflexivity.
Qed.

Lemma sort_desc_perm (l : list MatchResult) : Permutation (sort_desc l) l.
Proof.
  induction l as [|x l IH]; simpl.
  - reflexivity.
  - rewrite insert_desc_perm, IH. reflexivity.
Qed.

Lemma insert_desc_sorted (x : MatchResult) (l : list MatchResult) :
  sorted_desc l -> sorted_desc (insert_desc x l).
Proof.
  unfold sorted_desc. induction l as [|y l IH]; simpl; intros Hs.
  - constructor; constructor.
  - apply StronglySorted_inv in Hs. destruct Hs as [Hl Hy].
    destruct (score_lt x y) eqn:E.
    + constructor; [apply IH; exact Hl |].
      rewrite List.Forall_forall. intros z Hz.
      apply (Permutation_in _ (insert_desc_perm x l)) in Hz.
      destruct Hz as [<- | Hz].
      * apply Qlt_le_weak, score_lt_true, E.
      * rewrite List.Forall_forall in Hy. apply Hy, Hz.
    + apply score_lt_false in E.
      constructor; [constructor; assumption |].
      constructor; [exact E |].
      rewrite List.Forall_forall in Hy |- *. intros z Hz.
      apply Qle_trans with (score y); [apply Hy, Hz | exact E].
Qed.

Lemma sort_desc_sorted (l : list MatchResult) : sorted_desc (sort_desc l).
Proof.
  induction l as [|x l IH]; simpl.
  - constructor.
  - apply insert_desc_sorted, IH.
Qed.

Lemma insert_desc_with_score (s : Q) (x : MatchResult) (l : list MatchResult) :
  with_score s (insert_desc x l) = with_score s (x :: l).
Proof.
  unfold with_score. induction l as [|y l IH]; simpl.
  - reflexivity.
  - destruct (score_lt x y) eqn:E; [| reflexivity].
    simpl. rewrite IH. simpl.
    destruct (Qeq_bool (score y) s) eqn:Ey; [| reflexivity].
    destruct (Qeq_bool (score x) s) eqn:Ex; [| reflexivity].
    exfalso. apply score_lt_true in E.
    apply Qeq_bool_iff in Ex, Ey. rewrite Ex, Ey in E.
    exact (Qlt_irrefl _ E).
Qed.

(** Stability: entries of equal score keep their order. *)
Lemma sort_desc_stable (s : Q) (l : list MatchResult) :
  with_score s (sort_desc l) = with_score s l.
Proof.
  induction l as [|x l IH]; simpl.
  - reflexivity.
  - rewrite insert_desc_with_score. unfold with_score in *. simpl.
    rewrite IH. reflexivity.
Qed.

Lemma with_score_In (s : Q) (m : MatchResult) (l : list MatchResult) :
  In m (with_score s l) <-> In m l /\ (score m == s)%Q.
Proof.
  unfold with_score. rewrite filter_In, Qeq_bool_iff. reflexivity.
Qed.

(** A stable sort has one result: two lists sorted by non-increasing score
    that hold the same entries in the same order at every score are equal.
    So [sort_desc] returns what any stable sort returns. *)
Lemma stable_sorted_unique (l1 l2 : list MatchResult) :
  sorted_desc l1 -> sorted_desc l2 ->
  (forall s, with_score s l1 = with_score s l2) ->
  l1 = l2.
Proof.
  unfold sorted_desc. revert l2. induction l1 as [|a l1 IH]; intros l2 H1 H2 Heq.
  - destruct l2 as [|b l2]; [reflexivity |].
    specialize (Heq (score b)). unfold with_score in Heq. simpl in Heq.
    rewrite Qeq_bool_refl in Heq. discriminate.
  - apply StronglySorted_inv in H1. destruct H1 as [H1 Ha].
    destruct l2 as [|b l2].
    + specialize (Heq (score a)). unfold with_score in Heq. simpl in Heq.
      rewrite Qeq_bool_refl in Heq. discriminate.
    + apply StronglySorted_inv in H2. destruct H2 as [H2 Hb].
      rewrite List.Forall_forall in Ha, Hb.
      assert (Hab : (score a == score b)%Q).
      { apply Qle_antisym.
        - assert (Hin : In a (with_score (score a) (b :: l2))).
          { rewrite <- Heq. apply with_score_In. split; [left; reflexivity | reflexivity]. }
          apply with_score_In in Hin. destruct Hin as [[<- | Hin] _].
          + apply Qle_refl.
          + apply Hb, Hin.
        - assert (Hin : In b (with_score (score b) (a :: l1))).
          { rewrite Heq. apply with_score_In. split; [left; reflexivity | reflexivity]. }
          apply with_score_In in Hin. destruct Hin as [[<- | Hin] _].
          + apply Qle_refl.
          + apply Ha, Hin. }
      assert (Hhd : a = b).
      { specialize (Heq (score a)). unfold with_score in Heq. simpl in Heq.
        rewrite Qeq_bool_refl in Heq.
        assert (Hb' : Qeq_bool (score b) (score a) = true)
          by (apply Qeq_bool_iff; symmetry; exact Hab).
        rewrite Hb' in Heq. congruence. }
      subst b. f_equal. apply IH; [exact H1 | exact H2 |].
      intros s. specialize (Heq s). unfold with_score in *. simpl in Heq.
      destruct (Qeq_bool (score a) s); congruence.
Qed.

(** ** FuzzyMatcher *)

Lemma filter_sublist {A} (f : A -> bool) (l : list A) : sublist (List.filter f l) l.
Proof.
  induction l as [|x l IH]; simpl.
  - constructor.
  - destruct (f x); constructor; exact IH.
Qed.

Lemma map_sublist {A B} (f : A -> B) (l1 l2 : list A) :
  sublist l1 l2 -> sublist (map f l1) (map f l2).
Proof. induction 1; simpl; constructor; assumption. Qed.

Lemma sublist_In {A} (x : A) (l1 l2 : list A) : sublist l1 l2 -> In x l1 -> In x l2.
Proof.
  induction 1 as [|y l1 l2 _ IH|y l1 l2 _ IH]; simpl; intros Hx.
  - exact Hx.
  - destruct Hx as [-> | Hx]; [left; reflexivity | right; apply IH, Hx].
  - right. apply IH, Hx.
Qed.

Section MatcherFacts.

Variable ratio : string -> string -> Q.

Lemma collect_flat_map (query : string) (options : list string) (threshold : Q) :
  collect ratio query options threshold
  = flat_map (match_option ratio (lower query) threshold) options.
Proof.
  unfold collect.
  assert (H : forall acc,
    fold_left (fun matches option =>
                 matches ++ match_option ratio (lower query) threshold option)
              options acc
    = acc ++ flat_map (match_option ratio (lower query) threshold) options).
  { induction options as [|o os IH]; intros acc; simpl.
    - rewrite app_nil_r. reflexivity.
    - rewrite IH, <- app_assoc. reflexivity. }
  apply (H []).
Qed.

(** A candidate contributes no entry or one entry, which carries the
    candidate itself as its name. *)
Lemma match_option_cases (query_lower : string) (threshold : Q) (option : string) :
  match_option ratio query_lower threshold option = []
  \/ exists m, match_option ratio query_lower threshold option = [m] /\ name m = option.
Proof.
  unfold match_option.
  destruct (String.eqb _ _); [right; eexists; split; reflexivity |].
  destruct (_ || _); [right; eexists; split; reflexivity |].
  destruct (Qle_bool _ _); [right; eexists; split; reflexivity | left; reflexivity].
Qed.

Lemma collect_names_sublist (query : string) (options : list string) (threshold : Q) :
  sublist (map name (collect ratio query options threshold)) options.
Proof.
  rewrite collect_flat_map. induction options as [|o os IH]; simpl.
  - constructor.
  - destruct (match_option_cases (lower query) threshold o) as [-> | [m [-> <-]]]; simpl.
    + constructor. exact IH.
    + constructor. exact IH.
Qed.

Lemma collect_length (query : string) (options : list string) (threshold : Q) :
  length (collect ratio query options threshold) <= length options.
Proof.
  rewrite <- (length_map name). apply sublist_length, collect_names_sublist.
Qed.

Lemma fuzzy_match_perm (query : string) (options : list string) (threshold : Q) :
  Permutation (fuzzy_match ratio query options threshold)
              (collect ratio query options threshold).
Proof. apply sort_desc_perm. Qed.

Lemma fuzzy_match_length (query : string) (options : list string) (threshold : Q) :
  length (fuzzy_match ratio query options threshold) <= length options.
Proof.
  rewrite (Permutation_length (fuzzy_match_perm query options threshold)).
  apply collect_length.
Qed.

(** Every entry carries a candidate and meets the criterion of its tier. *)
Lemma fuzzy_match_entry (query : string) (options : list string) (threshold : Q)
    (m : MatchResult) :
  In m (fuzzy_match ratio query options threshold) ->
  In (name m) options /\ meets_criterion ratio query threshold m.
Proof.
  intros Hm.
  apply (Permutation_in _ (fuzzy_match_perm query options threshold)) in Hm.
  rewrite collect_flat_map in Hm. apply in_flat_map in Hm.
  destruct Hm as [o [Ho Hm]]. unfold match_option in Hm. unfold meets_criterion.
  destruct (String.eqb (lower query) (lower o)) eqn:He.
  { destruct Hm as [<- | []]. apply String.eqb_eq in He. simpl. auto. }
  apply String.eqb_neq in He.
  destruct (py_in (lower query) (lower o) || py_in (lower o) (lower query)) eqn:Hc.
  { destruct Hm as [<- | []]. simpl. split; [exact Ho |]. right. left.
    repeat split; try assumption.
    apply orb_true_iff in Hc. destruct Hc as [Hc | Hc]; [left | right];
      apply py_in_spec; exact Hc. }
  apply orb_false_iff in Hc. destruct Hc as [Hc1 Hc2].
  apply py_in_false in Hc1, Hc2.
  destruct (Qle_bool threshold (ratio (lower query) (lower o))) eqn:Hr; [| destruct Hm].
  destruct Hm as [<- | []]. simpl. split; [exact Ho |]. right. right.
  repeat split; try assumption. apply Qle_bool_iff. exact Hr.
Qed.

(** What the loop collects for the empty query. *)
Lemma match_option_empty_query (threshold : Q) (option : string) :
  match_option ratio EmptyString threshold option
  = [if String.eqb EmptyString option then mkMatch option 1 Exact
     else mkMatch option (9 # 10) Contains].
Proof.
  unfold match_option. destruct option as [|c o]; simpl; reflexivity.
Qed.

End MatcherFacts.

(** C1 as stated fails: an empty query against one non-empty candidate does
    not return the empty list; it returns a contains entry of score 0.9 for
    that candidate, because the empty string occurs in every string. *)
Lemma empty_query_counterexample :
  fuzzy_match no_similarity "" ["Sales"] default_threshold
  = [mkMatch "Sales" (9 # 10) Contains]
  /\ fuzzy_match no_similarity "" ["Sales"] default_threshold <> [].
Proof. split; [reflexivity | discriminate]. Qed.

(** C1, amended: for the empty query every candidate contributes one entry,
    whatever the threshold and the similarity ratio: the names of the result
    are the candidates (as a multiset), an entry with the empty name is an
    exact match of score 1, an entry with a non-empty name is a contains match
    of score 0.9, and no entry is a fuzzy match. *)
Theorem empty_query_matches (ratio : string -> string -> Q)
    (options : list string) (threshold : Q) :
  Permutation (map name (fuzzy_match ratio "" options threshold)) options
  /\ forall m, In m (fuzzy_match ratio "" options threshold) ->
       (name m = "" /\ score m = 1%Q /\ match_type m = Exact)
       \/ (name m <> "" /\ score m = (9 # 10)%Q /\ match_type m = Contains).
Proof.
  assert (Hc : collect ratio "" options threshold
               = map (fun o => if String.eqb "" o then mkMatch o 1 Exact
                               else mkMatch o (9 # 10) Contains) options).
  { rewrite collect_flat_map. simpl.
    induction options as [|o os IH]; simpl.
    - reflexivity.
    - rewrite match_option_empty_query, IH. reflexivity. }
  split.
  - rewrite (fuzzy_match_perm ratio "" options threshold), Hc.
    rewrite List.map_map.
    assert (E : map (fun o => name (if String.eqb "" o then mkMatch o 1 Exact
                                    else mkMatch o (9 # 10) Contains)) options
                = options).
    { rewrite <- (List.map_id options) at 2. apply List.map_ext.
      intros o. destruct (String.eqb "" o); reflexivity. }
    rewrite E. reflexivity.
  - intros m Hm.
    apply (Permutation_in _ (fuzzy_match_perm ratio "" options threshold)) in Hm.
    rewrite Hc in Hm. apply in_map_iff in Hm. destruct Hm as [o [<- _]].
    destruct (String.eqb "" o) eqn:E.
    + apply String.eqb_eq in E. subst o. left. repeat split.
    + apply String.eqb_neq in E. right. simpl. repeat split. congruence.
Qed.

(** C3 as stated fails: ["sale"] and ["SALE"] are different strings and each
    occurs in the other when case is ignored, yet the only entry is an exact
    match of score 1, not a contains match of score 0.9. *)
Lemma contains_counterexample :
  "sale" <> "SALE"
  /\ Substring (lower "sale") (lower "SALE")
  /\ fuzzy_match no_similarity "sale" ["SALE"] default_threshold
     = [mkMatch "SALE" 1 Exact].
Proof.
  split; [discriminate |]. split; [| reflexivity].
  exists "", "". reflexivity.
Qed.

(** C3, amended: when the query and the candidate differ after lower-casing
    (not only as written) and one of the lower-cased strings occurs in the
    other, the result for the single candidate is one entry, a contains match
    of score 0.9 carrying the candidate. *)
Theorem contains_match (ratio : string -> string -> Q) (q c : string) (threshold : Q) :
  lower q <> lower c ->
  Substring (lower q) (lower c) \/ Substring (lower c) (lower q) ->
  fuzzy_match ratio q [c] threshold = [mkMatch c (9 # 10) Contains].
Proof.
  intros Hne Hsub. unfold fuzzy_match. rewrite collect_flat_map. simpl.
  unfold match_option.
  apply String.eqb_neq in Hne. rewrite Hne.
  assert (Hin : py_in (lower q) (lower c) || py_in (lower c) (lower q) = true).
  { apply orb_true_iff. destruct Hsub as [H | H]; [left | right];
      apply py_in_spec; exact H. }
  rewrite Hin. reflexivity.
Qed.

(** [contains_match] at the query ["sale"] and the candidate ["Sales"]. *)
Lemma contains_match_witness :
  lower "sale" <> lower "Sales"
  /\ (Substring (lower "sale") (lower "Sales") \/ Substring (lower "Sales") (lower "sale"))
  /\ fuzzy_match no_similarity "sale" ["Sales"] default_threshold
     = [mkMatch "Sales" (9 # 10) Contains].
Proof.
  assert (H1 : lower "sale" <> lower "Sales") by discriminate.
  assert (H2 : Substring (lower "sale") (lower "Sales")
               \/ Substring (lower "Sales") (lower "sale"))
    by (left; exists "", "s"; reflexivity).
  split; [exact H1 |]. split; [exact H2 |].
  exact (contains_match no_similarity "sale" "Sales" default_threshold H1 H2).
Defined.

(** C4: the result is sorted by non-increasing score; it holds the entries
    the loop collected, and at every score the entries of that score stand in
    the order in which the loop met their candidates, so their names read in
    result order are a subsequence of the candidate list; and any list that
    is sorted and agrees with the collected entries at every score is this
    result, so the result depends on the input only. *)
Theorem fuzzy_match_sorted_stable (ratio : string -> string -> Q)
    (query : string) (options : list string) (threshold : Q) :
  let result := fuzzy_match ratio query options threshold in
  let collected := collect ratio query options threshold in
  sorted_desc result
  /\ Permutation result collected
  /\ (forall s, with_score s result = with_score s collected)
  /\ (forall s, sublist (map name (with_score s result)) options)
  /\ (forall l, sorted_desc l ->
                (forall s, with_score s l = with_score s collected) ->
                l = result).
Proof.
  cbv zeta. split; [apply sort_desc_sorted |].
  split; [apply fuzzy_match_perm |].
  split; [intros s; apply sort_desc_stable |].
  split.
  - intros s. unfold fuzzy_match. rewrite sort_desc_stable.
    transitivity (map name (collect ratio query options threshold)).
    + apply map_sublist, filter_sublist.
    + apply collect_names_sublist.
  - intros l Hl Hs. apply stable_sorted_unique.
    + exact Hl.
    + apply sort_desc_sorted.
    + intros s. rewrite Hs. symmetry. apply sort_desc_stable.
Qed.

(** The example of the spec: the exact match comes before the contains match
    although its candidate comes second. *)
Example fuzzy_match_order_example :
  fuzzy_match no_similarity "sale" ["Sales"; "Sale"] default_threshold
  = [mkMatch "Sale" 1 Exact; mkMatch "Sales" (9 # 10) Contains].
Proof. reflexivity. Qed.

(** Two contains matches keep the order of their candidates. *)
Example fuzzy_match_tie_example :
  fuzzy_match no_similarity "sale" ["Sales"; "Sale"; "Resale"] default_threshold
  = [mkMatch "Sale" 1 Exact; mkMatch "Sales" (9 # 10) Contains;
     mkMatch "Resale" (9 # 10) Contains].
Proof. reflexivity. Qed.

(** The name of an entry is the candidate as written, not its lower-cased
    copy. *)
Example fuzzy_match_keeps_case :
  fuzzy_match no_similarity "sales" ["SALES"; "Total Sales"] default_threshold
  = [mkMatch "SALES" 1 Exact; mkMatch "Total Sales" (9 # 10) Contains].
Proof. reflexivity. Qed.

(** C10: the names of the result, in result order, are a rearrangement of a
    subsequence of the candidate list: every name is a candidate as it was
    given, and no candidate occurrence is used twice. *)
Theorem fuzzy_match_names (ratio : string -> string -> Q)
    (query : string) (options : list string) (threshold : Q) :
  (exists chosen, sublist chosen options
     /\ Permutation (map name (fuzzy_match ratio query options threshold)) chosen)
  /\ forall m, In m (fuzzy_match ratio query options threshold) -> In (name m) options.
Proof.
  assert (H : exists chosen, sublist chosen options
     /\ Permutation (map name (fuzzy_match ratio query options threshold)) chosen).
  { exists (map name (collect ratio query options threshold)). split.
    - apply collect_names_sublist.
    - apply Permutation_map, fuzzy_match_perm. }
  split; [exact H |].
  destruct H as [chosen [Hsub Hperm]]. intros m Hm.
  apply (in_map name) in Hm.
  apply (Permutation_in _ Hperm) in Hm.
  eapply sublist_In; eassumption.
Qed.

(** ** [fuzzy_match] on the store *)

Section StoreFacts.

Variable ratio : string -> string -> Q.

(** One iteration appends to [matches] what the candidate contributes and
    writes nowhere else. *)
Lemma loop_body_run (query_lower : string) (threshold : Q) (matches : nat)
    (option : string) (h : Store.store) (ms : list MatchResult) :
  h !! matches = Some (Store.MatchList ms) ->
  Store.loop_body ratio query_lower threshold matches option h
  = Some (tt, <[matches := Store.MatchList (ms ++ match_option ratio query_lower threshold option)]> h).
Proof.
  intros Hm. unfold Store.loop_body, match_option, Store.append.
  destruct (String.eqb _ _); [rewrite Hm; reflexivity |].
  destruct (_ || _); [rewrite Hm; reflexivity |].
  destruct (Qle_bool _ _); [rewrite Hm; reflexivity |].
  rewrite app_nil_r, insert_id by exact Hm. reflexivity.
Qed.

(** The loop, started at index [i] with enough fuel to reach the end of the
    list: [matches] grows by the entries of the candidates from [i] on. *)
Lemma for_options_run (query_lower : string) (threshold : Q) (matches options : nat)
    (opts : list string) (fuel : nat) :
  matches <> options ->
  forall (i : nat) (h : Store.store) (ms : list MatchResult),
  h !! options = Some (Store.StrList opts) ->
  h !! matches = Some (Store.MatchList ms) ->
  length opts <= i + fuel ->
  Store.for_options fuel options i (Store.loop_body ratio query_lower threshold matches) h
  = Some (tt, <[matches := Store.MatchList
                  (ms ++ flat_map (match_option ratio query_lower threshold) (drop i opts))]> h).
Proof.
  intros Hne. induction fuel as [|fuel IH]; intros i h ms Ho Hm Hlen.
  - simpl. unfold Store.ret. rewrite drop_ge by lia. simpl.
    rewrite app_nil_r, insert_id by exact Hm. reflexivity.
  - simpl. unfold Store.bind at 1. unfold Store.next. rewrite Ho.
    destruct (opts !! i) as [o|] eqn:Hi.
    + unfold Store.bind. rewrite (loop_body_run _ _ _ _ _ ms Hm).
      rewrite (IH (S i) _ (ms ++ match_option ratio query_lower threshold o)).
      * rewrite insert_insert_eq. rewrite (drop_S _ _ _ Hi). simpl.
        rewrite app_assoc. reflexivity.
      * rewrite lookup_insert_ne by exact Hne. exact Ho.
      * apply lookup_insert_eq.
      * lia.
    + unfold Store.ret. apply lookup_ge_None in Hi. rewrite drop_ge by exact Hi. simpl.
      rewrite app_nil_r, insert_id by exact Hm. reflexivity.
Qed.

(** C5: run on a store where [options] refers to the candidate list, with
    enough fuel for the loop to reach its end, [fuzzy_match] returns; the
    list it returns is a new object; [options] still refers to the same
    candidates and every object that existed is unchanged; the returned list
    is the sorted list of entries, it is not longer than the candidate list,
    and each of its entries carries a candidate that meets the exact, the
    contains or the threshold criterion. *)
Theorem fuzzy_match_leaves_options (h : Store.store) (options : nat) (opts : list string)
    (query : string) (threshold : Q) (fuel : nat) :
  h !! options = Some (Store.StrList opts) ->
  length opts <= fuel ->
  exists (matches : nat) (h' : Store.store),
    Store.fuzzy_match ratio fuel query options threshold h = Some (matches, h')
    /\ h !! matches = None
    /\ h' !! options = Some (Store.StrList opts)
    /\ (forall l, is_Some (h !! l) -> h' !! l = h !! l)
    /\ h' !! matches = Some (Store.MatchList (fuzzy_match ratio query opts threshold))
    /\ length (fuzzy_match ratio query opts threshold) <= length opts
    /\ (forall m, In m (fuzzy_match ratio query opts threshold) ->
          In (name m) opts /\ meets_criterion ratio query threshold m).
Proof.
  intros Ho Hlen.
  set (l := fresh (dom h)).
  assert (Hl : h !! l = None).
  { apply not_elem_of_dom. apply is_fresh. }
  assert (Hne : l <> options) by (intros ->; congruence).
  exists l, (<[l := Store.MatchList (fuzzy_match ratio query opts threshold)]> h).
  split; [| split; [exact Hl | split; [| split; [| split; [| split]]]]].
  - unfold Store.fuzzy_match, Store.bind at 1, Store.new_list. fold l.
    unfold Store.bind at 1.
    rewrite (for_options_run (lower query) threshold l options opts fuel Hne 0 _ []).
    + unfold Store.bind, Store.sort. rewrite lookup_insert_eq. unfold Store.ret.
      rewrite !insert_insert_eq. simpl. rewrite <- collect_flat_map. reflexivity.
    + rewrite lookup_insert_ne by exact Hne. exact Ho.
    + apply lookup_insert_eq.
    + lia.
  - rewrite lookup_insert_ne by exact Hne. exact Ho.
  - intros l' [v Hv]. rewrite lookup_insert_ne; [reflexivity |].
    intros <-. congruence.
  - apply lookup_insert_eq.
  - apply fuzzy_match_length.
  - intros m. apply fuzzy_match_entry.
Qed.

End StoreFacts.

(** [fuzzy_match_leaves_options] on a store with one list of two candidates. *)
Lemma fuzzy_match_leaves_options_witness :
  let h : gmap nat Store.pyobj := {[ 0%nat := Store.StrList ["Sales"; "Sale"] ]} in
  exists (matches : nat) (h' : gmap nat Store.pyobj),
    Store.fuzzy_match no_similarity 2 "sale" 0 default_threshold h = Some (matches, h')
    /\ h !! matches = None
    /\ h' !! 0%nat = Some (Store.StrList ["Sales"; "Sale"])
    /\ (forall l, is_Some (h !! l) -> h' !! l = h !! l)
    /\ h' !! matches
       = Some (Store.MatchList
                 (fuzzy_match no_similarity "sale" ["Sales"; "Sale"] default_threshold))
    /\ length (fuzzy_match no_similarity "sale" ["Sales"; "Sale"] default_threshold)
       <= length ["Sales"; "Sale"]
    /\ (forall m,
          In m (fuzzy_match no_similarity "sale" ["Sales"; "Sale"] default_threshold) ->
          In (name m) ["Sales"; "Sale"]
          /\ meets_criterion no_similarity "sale" default_threshold m).
Proof.
  intros h.
  apply (fuzzy_match_leaves_options no_similarity h 0 ["Sales"; "Sale"] "sale"
           default_threshold 2).
  - reflexivity.
  - simpl. lia.
Defined.

(** ** IntentClassifier *)

Lemma any_in_mentions (keywords : list string) (user_input : string) :
  any_in keywords (lower user_input) = true <-> mentions keywords user_input.
Proof. apply any_in_spec. Qed.

Lemma any_in_not_mentions (keywords : list string) (user_input : string) :
  ~ mentions keywords user_input -> any_in keywords (lower user_input) = false.
Proof. intros H. apply any_in_false. exact H. Qed.

(** C6: the keyword sets are tried on the lower-cased utterance in the order
    show, create, update, delete and the first one with a keyword in it gives
    the intent: a show keyword gives show whatever else is there (a create
    keyword too); with no keyword of any set the intent is unknown. *)
Theorem detect_user_intent_priority (user_input : string) :
  (mentions show_keywords user_input -> detect_user_intent user_input = "show")
  /\ (mentions show_keywords user_input -> mentions create_keywords user_input ->
      detect_user_intent user_input = "show")
  /\ (~ mentions show_keywords user_input -> mentions create_keywords user_input ->
      detect_user_intent user_input = "create")
  /\ (~ mentions show_keywords user_input -> ~ mentions create_keywords user_input ->
      mentions update_keywords user_input ->
      detect_user_intent user_input = "update")
  /\ (~ mentions show_keywords user_input -> ~ mentions create_keywords user_input ->
      ~ mentions update_keywords user_input -> mentions delete_keywords user_input ->
      detect_user_intent user_input = "delete")
  /\ (~ mentions show_keywords user_input -> ~ mentions create_keywords user_input ->
      ~ mentions update_keywords user_input -> ~ mentions delete_keywords user_input ->
      detect_user_intent user_input = "unknown").
Proof.
  unfold detect_user_intent.
  repeat split; intros;
    repeat match goal with
    | H : mentions _ _ |- _ => apply any_in_mentions in H; rewrite H
    | H : ~ mentions _ _ |- _ => apply any_in_not_mentions in H; rewrite H
    end; reflexivity.
Qed.

(** The classifications listed with the spec's testable properties, and an
    utterance with a show keyword and a create keyword, in mixed case. *)
Example detect_user_intent_examples :
  detect_user_intent "show total sales" = "show"
  /\ detect_user_intent "create a measure for profit" = "create"
  /\ detect_user_intent "xyz" = "unknown"
  /\ detect_user_intent "Create a NEW measure and Show it" = "show".
Proof. repeat split. Qed.

(** ** MeasureRequestParser *)

(** *** The pattern search against the language of the pattern *)

Lemma is_ident_start_word (c : ascii) : is_ident_start c = true -> is_word c = true.
Proof. unfold is_word. intros ->. reflexivity. Qed.

Lemma span_word_split (s w r : string) :
  span_word s = (w, r) -> s = w +:+ r /\ all_word w = true /\ word_stops r = true.
Proof.
  revert w r. induction s as [|c s IH]; simpl; intros w r H.
  - injection H as <- <-. repeat split.
  - destruct (is_word c) eqn:Hc.
    + destruct (span_word s) as [w' r'] eqn:Hs. injection H as <- <-.
      destruct (IH w' r' eq_refl) as [-> [Hw Hr]]. simpl. rewrite Hc.
      repeat split; assumption.
    + injection H as <- <-. simpl. rewrite Hc. repeat split.
Qed.

Lemma span_word_app (w r : string) :
  all_word w = true -> word_stops r = true -> span_word (w +:+ r) = (w, r).
Proof.
  intros Hw Hr. induction w as [|c w IH]; simpl in *.
  - destruct r as [|c r]; simpl in *; [reflexivity |].
    apply negb_true_iff in Hr. rewrite Hr. reflexivity.
  - apply andb_true_iff in Hw. destruct Hw as [Hc Hw].
    rewrite Hc, (IH Hw). reflexivity.
Qed.

(** A match at the first character is found, with its groups, exactly when
    the string begins with a word of the language. *)
Lemma match_here_spec (s g1 g2 : string) :
  match_here s = Some (g1, g2) <-> matches_at_start s g1 g2.
Proof.
  unfold matches_at_start, well_formed_groups. split.
  - destruct s as [|c s]; [discriminate |]. unfold match_here.
    destruct (is_ident_start c) eqn:Hc; [| discriminate].
    destruct (span_word (String c s)) as [w r] eqn:Hs.
    destruct (startswith "[" r) eqn:Hb; [| discriminate].
    apply startswith_spec in Hb. destruct Hb as [r1 ->].
    change (drop_chars 1 ("[" +:+ r1)) with r1.
    destruct (span_word r1) as [w2 r2] eqn:Hs2.
    destruct (truthy w2 && startswith "]" r2) eqn:Hw2; [| discriminate].
    intros H. injection H as <- <-.
    apply andb_true_iff in Hw2. destruct Hw2 as [Hne Hcl].
    apply startswith_spec in Hcl. destruct Hcl as [post ->].
    apply span_word_split in Hs2. destruct Hs2 as [-> [Hw2 _]].
    pose proof (span_word_split _ _ _ Hs) as [Heq [Hw _]].
    destruct w as [|c' w].
    { simpl in Heq. injection Heq as -> _. discriminate Hc. }
    simpl in Heq. injection Heq as <- Heq.
    simpl in Hw. apply andb_true_iff in Hw. destruct Hw as [_ Hw].
    split; [split; [| split] |].
    + exists c, w. repeat split; assumption.
    + destruct w2; [discriminate | discriminate].
    + exact Hw2.
    + exists post. simpl. rewrite Heq. f_equal.
  - intros [[[c [w [-> [Hc Hw]]]] [Hne Hw2]] [post ->]].
    set (rest := "[" +:+ g2 +:+ "]" +:+ post).
    change (String c w +:+ rest) with (String c (w +:+ rest)).
    unfold match_here. rewrite Hc.
    change (String c (w +:+ rest)) with (String c w +:+ rest).
    rewrite (span_word_app (String c w) rest).
    + assert (Hopen : startswith "[" rest = true) by reflexivity.
      rewrite Hopen.
      change (drop_chars 1 rest) with (g2 +:+ "]" +:+ post).
      rewrite (span_word_app g2 ("]" +:+ post) Hw2 eq_refl).
      assert (Hclose : startswith "]" ("]" +:+ post) = true) by reflexivity.
      rewrite Hclose.
      destruct g2; [congruence | reflexivity].
    + change (all_word (String c w)) with (is_word c && all_word w).
      rewrite (is_ident_start_word c Hc), Hw. reflexivity.
    + reflexivity.
Qed.

Lemma re_search_eq (s : string) :
  re_search s = match match_here s with
                | Some g => Some g
                | None => match s with
                          | EmptyString => None
                          | String _ s' => re_search s'
                          end
                end.
Proof. destruct s; reflexivity. Qed.

(** The search finds nothing exactly when no suffix of the string begins with
    a word of the language, and otherwise returns the groups of a match that
    no match precedes. *)
Lemma re_search_spec (s : string) :
  match re_search s with
  | Some (g1, g2) =>
      exists pre rest,
        s = pre +:+ rest /\ matches_at_start rest g1 g2
        /\ forall pre' rest', s = pre' +:+ rest' ->
             String.length pre' < String.length pre -> match_here rest' = None
  | None => forall pre rest, s = pre +:+ rest -> match_here rest = None
  end.
Proof.
  induction s as [|c s IH]; rewrite re_search_eq.
  - intros pre rest H. destruct pre; [| discriminate].
    change (EmptyString = rest) in H. subst rest. reflexivity.
  - destruct (match_here (String c s)) as [[g1 g2]|] eqn:Hm.
    + exists EmptyString, (String c s). split; [reflexivity |].
      split; [apply match_here_spec, Hm |].
      intros pre' rest' _ Hlen. simpl in Hlen. lia.
    + destruct (re_search s) as [[g1 g2]|].
      * destruct IH as [pre [rest [-> [Hrest Hleft]]]].
        exists (String c pre), rest. split; [reflexivity |].
        split; [exact Hrest |].
        intros pre' rest' Heq Hlen. destruct pre' as [|c' pre'].
        -- change (String c (pre +:+ rest) = rest') in Heq. subst rest'. exact Hm.
        -- change (String c (pre +:+ rest) = String c' (pre' +:+ rest')) in Heq.
           injection Heq as _ Heq.
           apply (Hleft pre' rest' Heq). simpl in Hlen. lia.
      * intros pre rest Heq. destruct pre as [|c' pre].
        -- change (String c s = rest) in Heq. subst rest. exact Hm.
        -- change (String c s = String c' (pre +:+ rest)) in Heq.
           injection Heq as _ Heq. exact (IH pre rest Heq).
Qed.

(** C7: the operation and the explicit syntax are found apart from each
    other: an utterance with an operation and no explicit syntax, one with a
    table and a column and no operation, and one with both. *)
Theorem parse_measure_request_independent :
  parse_measure_request "total sales"
    = mkRequest (Some "SUM") None None false
  /\ parse_measure_request "show Sales[Amount]"
    = mkRequest None (Some "Sales") (Some "Amount") true
  /\ parse_measure_request "average Sales[Amount]"
    = mkRequest (Some "AVERAGE") (Some "Sales") (Some "Amount") true.
Proof. repeat split. Qed.

(** The operation depends on the lower-cased utterance alone, the table, the
    column and the flag on the pattern search alone, and the three of them
    go together. *)
Lemma parse_measure_request_fields (user_input : string) :
  operation (parse_measure_request user_input) = detect_operation (lower user_input)
  /\ (has_explicit_syntax (parse_measure_request user_input) = true
      <-> exists g1 g2, re_search user_input = Some (g1, g2)
            /\ table (parse_measure_request user_input) = Some g1
            /\ column (parse_measure_request user_input) = Some g2)
  /\ (has_explicit_syntax (parse_measure_request user_input) = false
      <-> table (parse_measure_request user_input) = None
          /\ column (parse_measure_request user_input) = None).
Proof.
  unfold parse_measure_request. simpl.
  destruct (re_search user_input) as [[g1 g2]|]; repeat split; try discriminate; eauto.
  - intros [? ?]. discriminate.
  - intros [g1 [g2 [? _]]]. discriminate.
Qed.

(** ** AgentRunner: error mapping *)

(** C9: when the [try] block raises [e], the answer is chosen on the
    lower-cased text of [e]: the not-found message when it contains "not
    found" or "does not exist"; else the syntax message when it contains
    "syntax"; else the too-long message when it contains "context" or "token";
    else the failure marker followed by the text of [e] as it is.  The first
    three answers are fixed texts. *)
Theorem error_classification (agent : AgentRunner.Agent)
    (user_input thread_id e : string) :
  AgentRunner.try_block agent user_input thread_id = Raised e ->
  let error := lower e in
  let answer := AgentRunner.run_agent_once agent user_input thread_id in
  (Substring "not found" error \/ Substring "does not exist" error ->
   answer = AgentRunner.not_found_message)
  /\ (~ Substring "not found" error -> ~ Substring "does not exist" error ->
      Substring "syntax" error ->
      answer = AgentRunner.syntax_message)
  /\ (~ Substring "not found" error -> ~ Substring "does not exist" error ->
      ~ Substring "syntax" error ->
      Substring "context" error \/ Substring "token" error ->
      answer = AgentRunner.too_long_message)
  /\ (~ Substring "not found" error -> ~ Substring "does not exist" error ->
      ~ Substring "syntax" error ->
      ~ Substring "context" error -> ~ Substring "token" error ->
      answer = AgentRunner.failure_marker +:+ e).
Proof.
  intros Hraise. cbv zeta. unfold AgentRunner.run_agent_once. rewrite Hraise.
  unfold AgentRunner.classify_error.
  repeat split; intros;
    repeat match goal with
    | H : Substring _ _ \/ Substring _ _ |- _ =>
        destruct H as [H | H]; apply py_in_spec in H; rewrite H
    | H : Substring _ _ |- _ => apply py_in_spec in H; rewrite H
    | H : ~ Substring _ _ |- _ => apply py_in_false in H; rewrite H
    end; simpl; rewrite ?orb_true_r; reflexivity.
Qed.

(** [error_classification] for an agent that raises a does-not-exist error. *)
Lemma error_classification_witness :
  let agent : AgentRunner.Agent := fun _ _ => Raised "Measure Total does not exist" in
  AgentRunner.try_block agent "show sales" "t" = Raised "Measure Total does not exist"
  /\ AgentRunner.run_agent_once agent "show sales" "t" = AgentRunner.not_found_message.
Proof.
  intros agent.
  assert (Hraise : AgentRunner.try_block agent "show sales" "t"
                   = Raised "Measure Total does not exist") by reflexivity.
  split; [exact Hraise |].
  destruct (error_classification agent "show sales" "t" _ Hraise) as [Hnf _].
  apply Hnf. right. exists "measure total ", "". reflexivity.
Defined.

(** An exception raised while the answer is read from the messages is mapped
    in the same way: an assistant message without [content] ends in the
    generic answer. *)
Example extraction_error_is_classified :
  AgentRunner.run_agent_once
    (fun _ _ => Returned [AgentRunner.mkMessage "AIMessage" None]) "hi" "t"
  = "❌ Error: 'AIMessage' object has no attribute 'content'".
Proof. reflexivity. Qed.

(** ** SchemaSearchService *)

(** Case analysis on the queries, on what the loading of the tools does, on
    the tool that is chosen and on what its invocation does. *)
Ltac search_cases mcp_session table_query column_query :=
  unfold SchemaSearch.search_tables_and_columns, SchemaSearch.try_except,
    SchemaSearch.search_body, SchemaSearch.bind, SchemaSearch.await,
    SchemaSearch.print, SchemaSearch.get, SchemaSearch.ret;
  let tools := fresh "tools" in
  let tool := fresh "tool" in
  let Hfind := fresh "Hfind" in
  let Hinv := fresh "Hinv" in
  destruct table_query as [[|? ?]|], column_query as [[|? ?]|];
  (destruct mcp_session as [[tools | ?] | ?];
   [ destruct (SchemaSearch.find_list_tool tools) as [tool|] eqn:Hfind;
     [ destruct (SchemaSearch.ainvoke tool) as [[[[[|? ?]|] [[|? ?]|]|] | ?] | ?] eqn:Hinv
     | ]
   | | ]);
  cbn.

(** C8 as stated fails: the search does raise to its caller.  When the task
    is cancelled while the tools are loaded, the [asyncio.CancelledError] is
    not an [Exception], neither handler catches it, and it leaves the
    function; no result is returned. *)
Lemma search_cancelled_counterexample :
  SchemaSearch.search_tables_and_columns no_similarity
    (Interrupted "CancelledError") (Some "sales") None
  = Interrupted "CancelledError"
  /\ SchemaSearch.search_tables_and_columns no_similarity
       (Completes (Returned [SchemaSearch.mkTool "list_tables"
                               (Interrupted "CancelledError")]))
       (Some "sales") None
     = Interrupted "CancelledError".
Proof. split; reflexivity. Qed.

Section SearchFacts.

Variable ratio : string -> string -> Q.

(** C8, amended: the search never raises an [Exception] to its caller.  The
    only exceptions that leave it are those that are not an [Exception],
    raised at the loading of the tools or at the invocation of the chosen
    tool, and they leave it as they are; in every other case it returns a
    result.  In a result that is returned: when the loading of the tools
    failed, the result is the empty one; when the chosen tool failed, the
    tables, the columns and both match lists are empty; and a match list is
    empty whenever the list it would be matched against is empty, whatever
    the query. *)
Theorem search_never_raises_exception
    (mcp_session : Awaited (list SchemaSearch.Tool))
    (table_query column_query : option string) :
  let outcome :=
    SchemaSearch.search_tables_and_columns ratio mcp_session table_query column_query in
  (forall e, outcome <> Completes (Raised e))
  /\ (forall e, outcome = Interrupted e <-> SchemaSearch.interrupted_at mcp_session e)
  /\ ((forall e, ~ SchemaSearch.interrupted_at mcp_session e) ->
      exists result, outcome = Completes (Returned result))
  /\ (forall result,
        outcome = Completes (Returned result) ->
        (forall e, mcp_session = Completes (Raised e) ->
           result = SchemaSearch.empty_result)
        /\ (forall tools tool e,
              mcp_session = Completes (Returned tools) ->
              SchemaSearch.find_list_tool tools = Some tool ->
              SchemaSearch.ainvoke tool = Completes (Raised e) ->
              result = SchemaSearch.empty_result)
        /\ (SchemaSearch.tables result = [] -> SchemaSearch.table_matches result = [])
        /\ (SchemaSearch.columns result = [] ->
            SchemaSearch.column_matches result = [])).
Proof.
  cbv zeta. unfold SchemaSearch.interrupted_at.
  search_cases mcp_session table_query column_query;
    (split; [intros err H; discriminate H |]);
    (split;
     [ intros err; split;
       [ intros H; first
           [ discriminate H
           | injection H as <-; first
               [ left; reflexivity
               | right; eexists _, _; repeat split; eassumption ] ]
       | intros [H | [tools' [tool' [H1 [H2 H3]]]]]; congruence ]
     |]);
    (split;
     [ intros Hno; first
         [ eexists; reflexivity
         | exfalso; eapply Hno; first
             [ left; reflexivity
             | right; eexists _, _; repeat split; eassumption ] ]
     |]);
    intros result H; first
      [ discriminate H
      | injection H as <-; cbn; repeat split; intros; congruence ].
Qed.

End SearchFacts.

(** ** AgentRunner: the answer *)

(** When the loop over the messages ends without an answer and the last
    message holds a text that is not blank, that text is the answer as it
    is: no hint is removed from it and it is not trimmed. *)
Lemma fallback_returns_text_verbatim (hints : list string)
    (all_messages : list AgentRunner.Message) (last_msg : AgentRunner.Message)
    (s : string) :
  last all_messages = Some last_msg ->
  AgentRunner.scan_messages hints (rev all_messages) = Returned None ->
  AgentRunner.content last_msg = Some (AgentRunner.ContentStr s) ->
  truthy (strip s) = true ->
  AgentRunner.extract_response hints all_messages = Returned s.
Proof.
  intros Hlast Hscan Hc Hs. unfold AgentRunner.extract_response.
  rewrite Hlast, Hscan. unfold AgentRunner.fallback. rewrite Hc, Hs. reflexivity.
Qed.

(** When the last message holds a blank text, or no text at all, the answer
    of the fallback is the success placeholder. *)
Lemma fallback_blank_is_placeholder (last_msg : AgentRunner.Message) :
  match AgentRunner.content last_msg with
  | Some (AgentRunner.ContentStr s) => truthy (strip s) = false
  | Some (AgentRunner.ContentList items) =>
      truthy (strip (join " " (map AgentRunner.item_str items))) = false
  | _ => True
  end ->
  AgentRunner.fallback last_msg = AgentRunner.success_placeholder.
Proof.
  unfold AgentRunner.fallback.
  destruct (AgentRunner.content last_msg) as [[s | items |]|]; intros H;
    try rewrite H; reflexivity.
Qed.

(** C2, on the program: an agent that returns the user's message alone.  No
    message is from the assistant, so the answer comes from the fallback; it
    is the enhanced input with its hint tag still in it, where removing the
    hints as the assistant branch does would have left the utterance. *)
Theorem fallback_keeps_hints :
  let agent : AgentRunner.Agent :=
    fun enhanced _ =>
      Returned [AgentRunner.mkMessage "HumanMessage"
                  (Some (AgentRunner.ContentStr enhanced))] in
  AgentRunner.build_hints "hello"
    = ["[Search for table/column names before asking user]"]
  /\ AgentRunner.run_agent_once agent "hello" "t"
     = "hello" +:+ AgentRunner.nl
       +:+ "[Search for table/column names before asking user]"
  /\ strip (AgentRunner.clean_hints (AgentRunner.build_hints "hello")
              (AgentRunner.enhance "hello"))
     = "hello".
Proof. repeat split. Qed.

(** An assistant message whose content is a list of blank texts ends the loop
    with the empty answer: the fallback is not reached. *)
Example blank_segments_give_empty_answer :
  AgentRunner.run_agent_once
    (fun _ _ =>
       Returned [AgentRunner.mkMessage "AIMessage"
                   (Some (AgentRunner.ContentList [AgentRunner.ItemStr " "]))])
    "hello" "t"
  = "".
Proof. reflexivity. Qed.

(** The hints of the spec's end-to-end scenario. *)
Example build_hints_scenario :
  AgentRunner.build_hints "show YoY growth from 2013 to 2014"
  = ["[Intent: SHOW]"; "[Search for table/column names before asking user]"].
Proof. reflexivity. Qed.

(** * Further properties *)

(** ** FuzzyMatcher: completeness, score range, threshold *)

Lemma filter_flat_map {A B} (P : B -> bool) (f : A -> list B) (l : list A) :
  List.filter P (flat_map f l) = flat_map (fun x => List.filter P (f x)) l.
Proof.
  induction l as [|x l IH]; simpl; [reflexivity |].
  rewrite List.filter_app, IH. reflexivity.
Qed.

Lemma filter_swap {A} (P Q : A -> bool) (l : list A) :
  List.filter P (List.filter Q l) = List.filter Q (List.filter P l).
Proof.
  induction l as [|x l IH]; simpl; [reflexivity |].
  destruct (P x) eqn:HP, (Q x) eqn:HQ; simpl; rewrite ?HP, ?HQ, IH; reflexivity.
Qed.

Lemma sorted_desc_filter (P : MatchResult -> bool) (l : list MatchResult) :
  sorted_desc l -> sorted_desc (List.filter P l).
Proof.
  unfold sorted_desc. induction 1 as [|x l Hl IH Hx]; simpl; [constructor |].
  destruct (P x); [| exact IH].
  constructor; [exact IH |].
  rewrite List.Forall_forall in Hx |- *. intros y Hy.
  apply filter_In in Hy. apply Hx, Hy.
Qed.

(** Filtering commutes with the stable sort. *)
Lemma sort_desc_filter (P : MatchResult -> bool) (l : list MatchResult) :
  List.filter P (sort_desc l) = sort_desc (List.filter P l).
Proof.
  apply stable_sorted_unique.
  - apply sorted_desc_filter, sort_desc_sorted.
  - apply sort_desc_sorted.
  - intros s. rewrite sort_desc_stable. unfold with_score.
    rewrite filter_swap.
    change (List.filter (fun m => Qeq_bool (score m) s) (sort_desc l))
      with (with_score s (sort_desc l)).
    rewrite sort_desc_stable. unfold with_score. apply filter_swap.
Qed.

Section MatcherMore.

Variable ratio : string -> string -> Q.

(** What a candidate contributes to the loop is in the result. *)
Lemma match_option_in_result (query : string) (options : list string) (threshold : Q)
    (o : string) :
  In o options ->
  forall m, In m (match_option ratio (lower query) threshold o) ->
            In m (fuzzy_match ratio query options threshold).
Proof.
  intros Ho m Hm.
  apply (Permutation_in _ (Permutation_sym (fuzzy_match_perm ratio query options threshold))).
  rewrite collect_flat_map. apply in_flat_map. exists o. split; assumption.
Qed.

(** X1: every candidate that meets a criterion is in the result with the
    entry of its tier, and a candidate that meets none has no entry. *)
Theorem fuzzy_match_complete (query : string) (options : list string) (threshold : Q)
    (o : string) :
  In o options ->
  let result := fuzzy_match ratio query options threshold in
  let q := lower query in
  let c := lower o in
  (q = c -> In (mkMatch o 1 Exact) result)
  /\ (q <> c -> Substring q c \/ Substring c q ->
      In (mkMatch o (9 # 10) Contains) result)
  /\ (q <> c -> ~ Substring q c -> ~ Substring c q ->
      (threshold <= ratio q c)%Q ->
      In (mkMatch o (ratio q c) Fuzzy) result)
  /\ (q <> c -> ~ Substring q c -> ~ Substring c q ->
      ~ (threshold <= ratio q c)%Q ->
      forall m, In m result -> name m <> o).
Proof.
  intros Ho. cbv zeta.
  pose proof (match_option_in_result query options threshold o Ho) as Hin.
  repeat split.
  - intros He. apply Hin. unfold match_option.
    apply String.eqb_eq in He. rewrite He. left. reflexivity.
  - intros Hne Hsub. apply Hin. unfold match_option.
    apply String.eqb_neq in Hne. rewrite Hne.
    assert (Hc : py_in (lower query) (lower o) || py_in (lower o) (lower query) = true).
    { apply orb_true_iff. destruct Hsub as [H | H]; [left | right];
        apply py_in_spec; exact H. }
    rewrite Hc. left. reflexivity.
  - intros Hne H1 H2 Hr. apply Hin. unfold match_option.
    apply String.eqb_neq in Hne. rewrite Hne.
    apply py_in_false in H1, H2. rewrite H1, H2. simpl.
    apply Qle_bool_iff in Hr. rewrite Hr. left. reflexivity.
  - intros Hne H1 H2 Hr m Hm Hname.
    apply (Permutation_in _ (fuzzy_match_perm ratio query options threshold)) in Hm.
    rewrite collect_flat_map in Hm. apply in_flat_map in Hm.
    destruct Hm as [o' [_ Hm]].
    assert (o' = o).
    { destruct (match_option_cases ratio (lower query) threshold o') as [E | [m' [E Hn]]];
        rewrite E in Hm; [destruct Hm |].
      destruct Hm as [<- | []]. congruence. }
    subst o'. unfold match_option in Hm.
    apply String.eqb_neq in Hne. rewrite Hne in Hm.
    apply py_in_false in H1, H2. rewrite H1, H2 in Hm. simpl in Hm.
    destruct (Qle_bool threshold (ratio (lower query) (lower o))) eqn:E.
    + apply Qle_bool_iff in E. contradiction.
    + destruct Hm.
Qed.

(** X2: when the similarity ratio lies between 0 and 1, so does every score
    of the result; and when some candidate equals the query up to case, the
    result begins with an entry of score 1. *)
Theorem fuzzy_match_score_range (query : string) (options : list string) (threshold : Q) :
  (forall a b, (0 <= ratio a b)%Q /\ (ratio a b <= 1)%Q) ->
  let result := fuzzy_match ratio query options threshold in
  (forall m, In m result -> (0 <= score m)%Q /\ (score m <= 1)%Q)
  /\ (forall o, In o options -> lower query = lower o ->
        exists m rest, result = m :: rest /\ (score m == 1)%Q).
Proof.
  intros Hr. cbv zeta.
  assert (Hrange : forall m, In m (fuzzy_match ratio query options threshold) ->
                             (0 <= score m)%Q /\ (score m <= 1)%Q).
  { intros m Hm. destruct (fuzzy_match_entry ratio query options threshold m Hm)
      as [_ [[_ [-> _]] | [[_ [-> _]] | [_ [-> _]]]]].
    - split; discriminate.
    - split; discriminate.
    - apply Hr. }
  split; [exact Hrange |].
  intros o Ho He.
  assert (Hex : In (mkMatch o 1 Exact) (fuzzy_match ratio query options threshold)).
  { apply (match_option_in_result query options threshold o Ho).
    unfold match_option. apply String.eqb_eq in He. rewrite He. left. reflexivity. }
  pose proof (sort_desc_sorted (collect ratio query options threshold)) as Hs.
  fold (fuzzy_match ratio query options threshold) in Hs.
  destruct (fuzzy_match ratio query options threshold) as [|m rest]; [destruct Hex |].
  exists m, rest. split; [reflexivity |].
  apply Qle_antisym.
  - apply Hrange. left. reflexivity.
  - destruct Hex as [-> | Hex]; [apply Qle_refl |].
    apply StronglySorted_inv in Hs. destruct Hs as [_ Hs].
    rewrite List.Forall_forall in Hs. apply (Hs _ Hex).
Qed.

(** X3: raising the threshold only removes fuzzy entries and keeps the order
    of what remains: the result for the higher threshold is the result for
    the lower one without the fuzzy entries below the higher threshold. *)
Theorem fuzzy_match_threshold_monotone (query : string) (options : list string)
    (t1 t2 : Q) :
  (t1 <= t2)%Q ->
  fuzzy_match ratio query options t2
  = List.filter (survives t2) (fuzzy_match ratio query options t1).
Proof.
  intros Ht. unfold fuzzy_match. rewrite sort_desc_filter. f_equal.
  rewrite !collect_flat_map, filter_flat_map.
  apply flat_map_ext. intros o. unfold match_option.
  destruct (String.eqb _ _); [reflexivity |].
  destruct (_ || _); [reflexivity |].
  destruct (Qle_bool t1 _) eqn:E1; simpl.
  - unfold survives. simpl. destruct (Qle_bool t2 _); reflexivity.
  - destruct (Qle_bool t2 _) eqn:E2; [| reflexivity].
    apply Qle_bool_iff in E2.
    assert (Qle_bool t1 (ratio (lower query) (lower o)) = true)
      by (apply Qle_bool_iff; eapply Qle_trans; eassumption).
    congruence.
Qed.

End MatcherMore.

(** [fuzzy_match_complete] for the candidate ["Revenue"] and the query
    ["sale"], under the flat ratio 0.7 and the default threshold. *)
Lemma fuzzy_match_complete_witness :
  In "Revenue" ["Sales"; "Revenue"]
  /\ In (mkMatch "Revenue" (7 # 10) Fuzzy)
        (fuzzy_match flat_similarity "sale" ["Sales"; "Revenue"] default_threshold).
Proof.
  assert (Ho : In "Revenue" ["Sales"; "Revenue"]) by (right; left; reflexivity).
  split; [exact Ho |].
  destruct (fuzzy_match_complete flat_similarity "sale" ["Sales"; "Revenue"]
              default_threshold "Revenue" Ho) as [_ [_ [H _]]].
  apply H.
  - discriminate.
  - apply py_in_false. reflexivity.
  - apply py_in_false. reflexivity.
  - discriminate.
Defined.

(** [fuzzy_match_score_range] under the flat ratio 0.7. *)
Lemma fuzzy_match_score_range_witness :
  (forall a b, (0 <= flat_similarity a b)%Q /\ (flat_similarity a b <= 1)%Q)
  /\ (forall m,
        In m (fuzzy_match flat_similarity "sale" ["Revenue"; "SALE"] default_threshold) ->
        (0 <= score m)%Q /\ (score m <= 1)%Q)
  /\ (forall o, In o ["Revenue"; "SALE"] -> lower "sale" = lower o ->
        exists m rest,
          fuzzy_match flat_similarity "sale" ["Revenue"; "SALE"] default_threshold
          = m :: rest /\ (score m == 1)%Q).
Proof.
  assert (Hr : forall a b, (0 <= flat_similarity a b)%Q /\ (flat_similarity a b <= 1)%Q)
    by (intros a b; split; discriminate).
  split; [exact Hr |].
  exact (fuzzy_match_score_range flat_similarity "sale" ["Revenue"; "SALE"]
           default_threshold Hr).
Defined.

(** [fuzzy_match_threshold_monotone] between the thresholds 0.6 and 0.8. *)
Lemma fuzzy_match_threshold_monotone_witness :
  (6 # 10 <= 8 # 10)%Q
  /\ fuzzy_match flat_similarity "sale" ["Revenue"; "Sales"] (8 # 10)
     = List.filter (survives (8 # 10))
         (fuzzy_match flat_similarity "sale" ["Revenue"; "Sales"] (6 # 10)).
Proof.
  assert (Ht : (6 # 10 <= 8 # 10)%Q) by discriminate.
  split; [exact Ht |].
  exact (fuzzy_match_threshold_monotone flat_similarity "sale" ["Revenue"; "Sales"]
           (6 # 10) (8 # 10) Ht).
Defined.

(** Under the flat ratio the higher threshold drops the fuzzy entry. *)
Example fuzzy_match_threshold_example :
  fuzzy_match flat_similarity "sale" ["Revenue"; "Sales"] (6 # 10)
  = [mkMatch "Sales" (9 # 10) Contains; mkMatch "Revenue" (7 # 10) Fuzzy]
  /\ fuzzy_match flat_similarity "sale" ["Revenue"; "Sales"] (8 # 10)
     = [mkMatch "Sales" (9 # 10) Contains].
Proof. split; reflexivity. Qed.

(** ** IntentClassifier and MeasureRequestParser: case and priority *)

Lemma lower_ascii_upper (c : ascii) : lower_ascii (upper_ascii c) = lower_ascii c.
Proof. destruct c as [[] [] [] [] [] [] [] []]; reflexivity. Qed.

Lemma lower_ascii_idem (c : ascii) : lower_ascii (lower_ascii c) = lower_ascii c.
Proof. destruct c as [[] [] [] [] [] [] [] []]; reflexivity. Qed.

Lemma lower_upper (s : string) : lower (upper s) = lower s.
Proof.
  induction s as [|c s IH]; simpl; [reflexivity |].
  rewrite lower_ascii_upper, IH. reflexivity.
Qed.

Lemma lower_idem (s : string) : lower (lower s) = lower s.
Proof.
  induction s as [|c s IH]; simpl; [reflexivity |].
  rewrite lower_ascii_idem, IH. reflexivity.
Qed.

(** X4: the intent and the operation do not depend on the case of the
    utterance: writing it in upper case or in lower case changes neither. *)
Theorem classification_ignores_case (user_input : string) :
  detect_user_intent (upper user_input) = detect_user_intent user_input
  /\ detect_user_intent (lower user_input) = detect_user_intent user_input
  /\ operation (parse_measure_request (upper user_input))
     = operation (parse_measure_request user_input)
  /\ operation (parse_measure_request (lower user_input))
     = operation (parse_measure_request user_input).
Proof.
  unfold detect_user_intent, parse_measure_request. simpl.
  rewrite lower_upper, lower_idem. repeat split.
Qed.

(** The table and the column, unlike the operation, keep the case of the
    utterance. *)
Example explicit_syntax_keeps_case :
  parse_measure_request "AVG of SalesData[Net_Amount2] please"
  = mkRequest (Some "AVERAGE") (Some "SalesData") (Some "Net_Amount2") true.
Proof. reflexivity. Qed.

(** X5: the operation is the one of the first keyword group, in the order
    SUM, AVERAGE, COUNT, DISTINCTCOUNT, MIN, MAX, that has a keyword in the
    lower-cased utterance, and there is none when no group has one.  In
    particular an utterance with a count keyword is never a DISTINCTCOUNT. *)
Theorem detect_operation_priority (user_input : string) :
  let op := operation (parse_measure_request user_input) in
  let has := fun keywords => mentions keywords user_input in
  (has ["total"; "sum"] -> op = Some "SUM")
  /\ (~ has ["total"; "sum"] -> has ["average"; "avg"; "mean"] -> op = Some "AVERAGE")
  /\ (~ has ["total"; "sum"] -> ~ has ["average"; "avg"; "mean"] ->
      has ["count"; "number"] -> op = Some "COUNT")
  /\ (~ has ["total"; "sum"] -> ~ has ["average"; "avg"; "mean"] ->
      ~ has ["count"; "number"] -> has ["unique"; "distinct"] ->
      op = Some "DISTINCTCOUNT")
  /\ (~ has ["total"; "sum"] -> ~ has ["average"; "avg"; "mean"] ->
      ~ has ["count"; "number"] -> ~ has ["unique"; "distinct"] ->
      has ["min"; "minimum"] -> op = Some "MIN")
  /\ (~ has ["total"; "sum"] -> ~ has ["average"; "avg"; "mean"] ->
      ~ has ["count"; "number"] -> ~ has ["unique"; "distinct"] ->
      ~ has ["min"; "minimum"] -> has ["max"; "maximum"] -> op = Some "MAX")
  /\ (~ has ["total"; "sum"] -> ~ has ["average"; "avg"; "mean"] ->
      ~ has ["count"; "number"] -> ~ has ["unique"; "distinct"] ->
      ~ has ["min"; "minimum"] -> ~ has ["max"; "maximum"] -> op = None)
  /\ (has ["count"; "number"] -> op <> Some "DISTINCTCOUNT").
Proof.
  cbv zeta. unfold parse_measure_request. simpl operation. unfold detect_operation.
  repeat split; intros;
    repeat match goal with
    | H : mentions _ _ |- _ => apply any_in_mentions in H; rewrite H
    | H : ~ mentions _ _ |- _ => apply any_in_not_mentions in H; rewrite H
    end; try reflexivity.
  destruct (any_in ["total"; "sum"] (lower user_input)); [discriminate |].
  destruct (any_in ["average"; "avg"; "mean"] (lower user_input)); discriminate.
Qed.

(** An utterance that asks for a distinct count in words is read as a plain
    count, because the count keywords are tried first. *)
Example distinct_count_is_count :
  operation (parse_measure_request "distinct count of customers") = Some "COUNT".
Proof. reflexivity. Qed.

(** X6: the table and the column are set exactly when some suffix of the
    utterance begins with a word of the pattern's language; they are then the
    two groups of the leftmost such place, cut out of the utterance as it was
    written; otherwise both are absent and the flag is false. *)
Theorem parse_explicit_syntax (user_input : string) :
  let info := parse_measure_request user_input in
  match table info, column info with
  | Some t, Some c =>
      has_explicit_syntax info = true
      /\ well_formed_groups t c
      /\ exists pre post,
           user_input = pre +:+ t +:+ "[" +:+ c +:+ "]" +:+ post
           /\ forall pre' rest' g1 g2,
                user_input = pre' +:+ rest' ->
                String.length pre' < String.length pre ->
                ~ matches_at_start rest' g1 g2
  | None, None =>
      has_explicit_syntax info = false
      /\ forall pre rest g1 g2,
           user_input = pre +:+ rest -> ~ matches_at_start rest g1 g2
  | _, _ => False
  end.
Proof.
  cbv zeta. unfold parse_measure_request. simpl.
  pose proof (re_search_spec user_input) as H.
  destruct (re_search user_input) as [[g1 g2]|].
  - destruct H as [pre [rest [Hs [[Hwf [post ->]] Hleft]]]].
    split; [reflexivity |]. split; [exact Hwf |].
    exists pre, post. split; [exact Hs |].
    intros pre' rest' a b Heq Hlen Hm.
    apply match_here_spec in Hm. rewrite (Hleft pre' rest' Heq Hlen) in Hm.
    discriminate.
  - split; [reflexivity |].
    intros pre rest a b Heq Hm. apply match_here_spec in Hm.
    rewrite (H pre rest Heq) in Hm. discriminate.
Qed.

(** ** AgentRunner: the hints *)

Ltac not_among_hints :=
  let Hin := fresh "Hin" in
  intros Hin; simpl in Hin;
  repeat (destruct Hin as [Hin | Hin]; [vm_compute in Hin; discriminate Hin |]);
  exact Hin.

(** X7: there are between one and four hints.  With explicit syntax the last
    two are the explicit tag, built from the table and the column, and the
    high-confidence hint, and the search hint is not given; without it the
    last one is the search hint and the high-confidence hint is not given. *)
Theorem build_hints_shape (user_input : string) :
  let hints := AgentRunner.build_hints user_input in
  let info := parse_measure_request user_input in
  (1 <= length hints /\ length hints <= 4)
  /\ (has_explicit_syntax info = true ->
      exists front t c,
        table info = Some t /\ column info = Some c
        /\ hints = front ++ ["[Explicit: " +:+ t +:+ "[" +:+ c +:+ "]]"; confident_hint]
        /\ ~ In search_hint hints)
  /\ (has_explicit_syntax info = false ->
      exists front, hints = front ++ [search_hint] /\ ~ In confident_hint hints).
Proof.
  cbv zeta. unfold AgentRunner.build_hints.
  destruct (parse_measure_request_fields user_input) as [_ [Hyes _]].
  destruct (has_explicit_syntax (parse_measure_request user_input)) eqn:Hflag.
  - destruct Hyes as [Hyes _]. destruct (Hyes eq_refl) as [t [c [_ [Ht Hc]]]].
    rewrite Ht, Hc. unfold AgentRunner.fmt. simpl default.
    split; [| split; [| intros; discriminate]].
    + destruct (String.eqb _ _), (operation _) as [op|];
        try destruct (truthy op); simpl; lia.
    + intros _. eexists _, t, c. split; [reflexivity |]. split; [reflexivity |].
      split; [apply app_assoc |].
      destruct (String.eqb _ _), (operation _) as [op|];
        try destruct (truthy op); not_among_hints.
  - split; [| split; [intros; discriminate |]].
    + destruct (String.eqb _ _), (operation _) as [op|];
        try destruct (truthy op); simpl; lia.
    + intros _. eexists. split; [apply app_assoc |].
      destruct (String.eqb _ _), (operation _) as [op|];
        try destruct (truthy op); not_among_hints.
Qed.

(** ** AgentRunner: reading the answer *)

Lemma lstrip_starts_clean (s : string) : starts_clean (lstrip s) = true.
Proof.
  induction s as [|c s IH]; simpl; [reflexivity |].
  destruct (isspace c) eqn:E; [exact IH | simpl; rewrite E; reflexivity].
Qed.

Lemma lstrip_clean (s : string) : starts_clean s = true -> lstrip s = s.
Proof.
  destruct s as [|c s]; simpl; [reflexivity |].
  intros H. apply negb_true_iff in H. rewrite H. reflexivity.
Qed.

Lemma rstrip_starts_clean (s : string) :
  starts_clean s = true -> starts_clean (rstrip s) = true.
Proof.
  destruct s as [|c s]; simpl; [reflexivity |].
  intros H. destruct (rstrip s); [| exact H].
  apply negb_true_iff in H. rewrite H. simpl. rewrite H. reflexivity.
Qed.

Lemma rstrip_idem (s : string) : rstrip (rstrip s) = rstrip s.
Proof.
  induction s as [|c s IH]; simpl; [reflexivity |].
  destruct (rstrip s) as [|d r] eqn:E.
  - destruct (isspace c) eqn:Hc; simpl; [reflexivity | rewrite Hc; reflexivity].
  - change (rstrip (String c (String d r)))
      with (match rstrip (String d r) with
            | EmptyString => if isspace c then EmptyString else String c EmptyString
            | String a b => String c (String a b)
            end).
    rewrite IH. reflexivity.
Qed.

(** Trimming a trimmed string changes nothing. *)
Lemma strip_idem (s : string) : strip (strip s) = strip s.
Proof.
  unfold strip.
  rewrite (lstrip_clean (rstrip (lstrip s))).
  - apply rstrip_idem.
  - apply rstrip_starts_clean, lstrip_starts_clean.
Qed.

Lemma scan_skips_others (hints : list string) (later earlier : list AgentRunner.Message) :
  (forall x, In x later -> AgentRunner.is_assistant x = false) ->
  AgentRunner.scan_messages hints (later ++ earlier)
  = AgentRunner.scan_messages hints earlier.
Proof.
  induction later as [|x later IH]; intros H; simpl; [reflexivity |].
  rewrite (H x (or_introl eq_refl)). apply IH. intros y Hy. apply H. right. exact Hy.
Qed.

(** X8: the answer is read from the most recent assistant message: when it
    holds a text that is not blank, that text, without the hints and trimmed,
    is the answer, whatever came before it and whatever messages of other
    kinds came after it. *)
Theorem latest_assistant_answer (hints : list string)
    (before after : list AgentRunner.Message) (msg : AgentRunner.Message) (s : string) :
  AgentRunner.is_assistant msg = true ->
  AgentRunner.content msg = Some (AgentRunner.ContentStr s) ->
  truthy (strip s) = true ->
  (forall x, In x after -> AgentRunner.is_assistant x = false) ->
  AgentRunner.extract_response hints (before ++ msg :: after)
  = Returned (strip (AgentRunner.clean_hints hints s)).
Proof.
  intros Ha Hc Hs Hafter. unfold AgentRunner.extract_response.
  destruct (last (before ++ msg :: after)) as [last_msg|] eqn:Hl.
  - rewrite rev_app_distr. simpl rev. rewrite <- app_assoc.
    rewrite scan_skips_others.
    + simpl. rewrite Ha, Hc, Hs. reflexivity.
    + intros x Hx. apply Hafter. apply in_rev. exact Hx.
  - apply last_None in Hl. destruct before; discriminate.
Qed.

(** The answer the loop returns is trimmed. *)
Lemma scan_answer_trimmed (hints : list string) (reversed : list AgentRunner.Message)
    (answer : string) :
  AgentRunner.scan_messages hints reversed = Returned (Some answer) ->
  strip answer = answer.
Proof.
  induction reversed as [|msg rest IH]; simpl; [discriminate |].
  destruct (AgentRunner.is_assistant msg); [| exact IH].
  destruct (AgentRunner.content msg) as [[s | items |]|]; try discriminate; try exact IH.
  - destruct (truthy (strip s)); [| exact IH].
    intros H. injection H as <-. apply strip_idem.
  - destruct (SchemaSearch.nonempty (AgentRunner.collect_texts items)); [| exact IH].
    intros H. injection H as <-. apply strip_idem.
Qed.

(** X9: whenever some assistant message gives the answer, the answer has no
    white space at its beginning or at its end: trimming it changes nothing. *)
Theorem assistant_answer_trimmed (hints : list string)
    (all_messages : list AgentRunner.Message) (answer : string) :
  AgentRunner.scan_messages hints (rev all_messages) = Returned (Some answer) ->
  AgentRunner.extract_response hints all_messages = Returned answer
  /\ strip answer = answer.
Proof.
  intros Hscan. split.
  - unfold AgentRunner.extract_response.
    destruct (last all_messages) as [last_msg|] eqn:Hl.
    + rewrite Hscan. reflexivity.
    + apply last_None in Hl. subst all_messages. discriminate.
  - eapply scan_answer_trimmed. exact Hscan.
Qed.

Lemma remove_scan_absent (old s : string) :
  py_in old s = false -> remove_scan old 0 s = s.
Proof.
  induction s as [|c s IH]; intros H; [reflexivity |].
  change (py_in old (String c s)) with (startswith old (String c s) || py_in old s) in H.
  apply orb_false_iff in H. destruct H as [H1 H2].
  change (remove_scan old 0 (String c s))
    with (if startswith old (String c s)
          then remove_scan old (String.length old - 1) s
          else String c (remove_scan old 0 s)).
  rewrite H1, (IH H2). reflexivity.
Qed.

Lemma remove_all_absent (old s : string) : ~ Substring old s -> remove_all old s = s.
Proof.
  intros H. destruct old as [|a old]; [reflexivity |].
  apply remove_scan_absent, py_in_false, H.
Qed.

(** X10: removing the hints from a text in which none of them occurs leaves
    the text as it is. *)
Theorem clean_hints_absent (hints : list string) (text : string) :
  (forall h, In h hints -> ~ Substring h text) ->
  AgentRunner.clean_hints hints text = text.
Proof.
  unfold AgentRunner.clean_hints. induction hints as [|h hints IH]; intros H; simpl.
  - reflexivity.
  - rewrite (remove_all_absent h text (H h (or_introl eq_refl))).
    apply IH. intros h' Hh'. apply H. right. exact Hh'.
Qed.

Lemma append_cons (c : ascii) (a b : string) : String c a +:+ b = String c (a +:+ b).
Proof. reflexivity. Qed.

Lemma append_nil_l (s : string) : EmptyString +:+ s = s.
Proof. reflexivity. Qed.

Lemma append_assoc (a b c : string) : (a +:+ b) +:+ c = a +:+ (b +:+ c).
Proof.
  induction a as [|x a IH]; [reflexivity |].
  rewrite !append_cons. f_equal. exact IH.
Qed.

Lemma remove_scan_skip (old w s : string) :
  remove_scan old (String.length w) (w +:+ s) = remove_scan old 0 s.
Proof.
  induction w as [|c w IH]; [reflexivity |].
  rewrite append_cons. exact IH.
Qed.

Lemma remove_scan_cons (old : string) (c : ascii) (s : string) :
  remove_scan old 0 (String c s)
  = if startswith old (String c s)
    then remove_scan old (String.length old - 1) s
    else String c (remove_scan old 0 s).
Proof. reflexivity. Qed.

(** X11: removing from a text a hint that occurs in it at one place only
    takes out that occurrence and nothing else. *)
Theorem remove_all_single (old pre suf : string) :
  old <> EmptyString ->
  (forall pre' suf', pre +:+ old +:+ suf = pre' +:+ old +:+ suf' -> pre' = pre) ->
  remove_all old (pre +:+ old +:+ suf) = pre +:+ suf.
Proof.
  intros Hne. destruct old as [|a old0] eqn:Hold; [congruence |].
  rewrite <- Hold in *. clear Hne.
  assert (Hall : forall s, remove_all old s = remove_scan old 0 s)
    by (rewrite Hold; reflexivity).
  assert (Hlen : String.length old - 1 = String.length old0)
    by (rewrite Hold; simpl; lia).
  rewrite Hall. clear Hall.
  induction pre as [|c pre IH]; intros Huniq.
  - rewrite !append_nil_l.
    assert (Hst : startswith old (old +:+ suf) = true)
      by (apply startswith_spec; exists suf; reflexivity).
    assert (Hshape : old +:+ suf = String a (old0 +:+ suf))
      by (rewrite Hold; reflexivity).
    rewrite Hshape in Hst |- *.
    rewrite remove_scan_cons, Hst, Hlen, remove_scan_skip.
    apply remove_scan_absent, py_in_false. intros [p [q Hq]].
    specialize (Huniq (old +:+ p) q).
    rewrite append_nil_l, append_assoc, <- Hq in Huniq.
    specialize (Huniq eq_refl).
    rewrite Hold in Huniq. discriminate Huniq.
  - rewrite (append_cons c pre), remove_scan_cons.
    destruct (startswith old (String c (pre +:+ old +:+ suf))) eqn:Hst.
    + apply startswith_spec in Hst. destruct Hst as [x Hx].
      specialize (Huniq EmptyString x).
      rewrite (append_cons c pre), append_nil_l in Huniq.
      specialize (Huniq Hx). discriminate Huniq.
    + rewrite (append_cons c pre). f_equal. apply IH. intros pre' suf' Heq.
      specialize (Huniq (String c pre') suf').
      rewrite (append_cons c pre), (append_cons c pre'), Heq in Huniq.
      specialize (Huniq eq_refl).
      injection Huniq as ->. reflexivity.
Qed.

(** [remove_all_single] for the hint ["[x]"] between two words. *)
Lemma remove_all_single_witness :
  "[x]" <> EmptyString
  /\ (forall pre' suf', "a" +:+ "[x]" +:+ "b" = pre' +:+ "[x]" +:+ suf' -> pre' = "a")
  /\ remove_all "[x]" ("a" +:+ "[x]" +:+ "b") = "a" +:+ "b".
Proof.
  assert (H1 : "[x]" <> EmptyString) by discriminate.
  assert (H2 : forall pre' suf',
             "a" +:+ "[x]" +:+ "b" = pre' +:+ "[x]" +:+ suf' -> pre' = "a").
  { intros pre' suf' H. destruct pre' as [|c1 pre']; [discriminate H |].
    rewrite append_cons in H. injection H as <- H.
    destruct pre' as [|c2 pre']; [reflexivity |].
    rewrite append_cons in H. injection H as _ H.
    destruct pre' as [|c3 pre']; [discriminate H |].
    rewrite append_cons in H. injection H as _ H.
    destruct pre' as [|c4 pre']; [discriminate H |].
    rewrite append_cons in H. injection H as _ H.
    destruct pre' as [|c5 pre']; [discriminate H |].
    rewrite append_cons in H. injection H as _ H.
    destruct pre' as [|c6 pre']; [discriminate H |].
    rewrite append_cons in H. discriminate H. }
  split; [exact H1 |]. split; [exact H2 |].
  exact (remove_all_single "[x]" "a" "b" H1 H2).
Defined.

(** [latest_assistant_answer] for an answer followed by a tool message. *)
Lemma latest_assistant_answer_witness :
  let human := AgentRunner.mkMessage "HumanMessage" (Some (AgentRunner.ContentStr "show sales")) in
  let old := AgentRunner.mkMessage "AIMessage" (Some (AgentRunner.ContentStr "earlier answer")) in
  let ai := AgentRunner.mkMessage "AIMessage"
              (Some (AgentRunner.ContentStr "  Total is 42 [Intent: SHOW] ")) in
  let tool := AgentRunner.mkMessage "ToolMessage" (Some (AgentRunner.ContentStr "42")) in
  AgentRunner.extract_response ["[Intent: SHOW]"] ([human; old] ++ ai :: [tool])
  = Returned "Total is 42".
Proof.
  intros human old ai tool.
  apply (latest_assistant_answer ["[Intent: SHOW]"] [human; old] [tool] ai
           "  Total is 42 [Intent: SHOW] ").
  - reflexivity.
  - reflexivity.
  - reflexivity.
  - intros x [<- | []]. reflexivity.
Defined.

(** [assistant_answer_trimmed] for one assistant message. *)
Lemma assistant_answer_trimmed_witness :
  let ai := AgentRunner.mkMessage "AIMessage" (Some (AgentRunner.ContentStr "  ok  ")) in
  AgentRunner.scan_messages [] (rev [ai]) = Returned (Some "ok")
  /\ AgentRunner.extract_response [] [ai] = Returned "ok"
  /\ strip "ok" = "ok".
Proof.
  intros ai.
  assert (H : AgentRunner.scan_messages [] (rev [ai]) = Returned (Some "ok"))
    by reflexivity.
  split; [exact H |].
  exact (assistant_answer_trimmed [] [ai] "ok" H).
Defined.

(** [clean_hints_absent] for an answer that repeats no hint. *)
Lemma clean_hints_absent_witness :
  (forall h, In h (AgentRunner.build_hints "show sales") -> ~ Substring h "All good")
  /\ AgentRunner.clean_hints (AgentRunner.build_hints "show sales") "All good"
     = "All good".
Proof.
  assert (H : forall h, In h (AgentRunner.build_hints "show sales") ->
                        ~ Substring h "All good").
  { intros h Hh. apply py_in_false.
    vm_compute in Hh. destruct Hh as [<- | [<- | []]]; reflexivity. }
  split; [exact H |].
  exact (clean_hints_absent (AgentRunner.build_hints "show sales") "All good" H).
Defined.

(** ** SchemaSearchService: the tool and the matches *)

(** X12: the tool that is invoked is the first one, in the order in which the
    tools were listed, whose name contains a schema keyword whatever its
    case; there is none exactly when no tool has such a name. *)
Theorem find_list_tool_first (tools : list SchemaSearch.Tool) :
  match SchemaSearch.find_list_tool tools with
  | Some tool =>
      exists before after,
        tools = before ++ tool :: after
        /\ is_schema_tool tool
        /\ forall t, In t before -> ~ is_schema_tool t
  | None => forall t, In t tools -> ~ is_schema_tool t
  end.
Proof.
  induction tools as [|t tools IH].
  - intros t [].
  - change (SchemaSearch.find_list_tool (t :: tools))
      with (if any_in SchemaSearch.schema_keywords (lower (SchemaSearch.tool_name t))
            then Some t else SchemaSearch.find_list_tool tools).
    destruct (any_in SchemaSearch.schema_keywords (lower (SchemaSearch.tool_name t))) eqn:E.
    + exists [], tools. split; [reflexivity |]. split.
      * apply any_in_spec. exact E.
      * intros x [].
    + apply any_in_false in E.
      destruct (SchemaSearch.find_list_tool tools) as [tool|].
      * destruct IH as [before [after [-> [Htool Hbefore]]]].
        exists (t :: before), after. split; [reflexivity |]. split; [exact Htool |].
        intros x [<- | Hx]; [exact E | apply Hbefore, Hx].
      * intros x [<- | Hx]; [exact E | apply IH, Hx].
Qed.

Section SearchMore.

Variable ratio : string -> string -> Q.

(** X13: whatever the session and the queries, the search returns a result
    unless an exception that is not an [Exception] interrupts one of its
    awaits; and in the result it returns, the table matches are the matches
    of the table query against the result's own tables under the default
    threshold when the query is a non-empty string, and there are none
    without such a query; so every table match names one of the tables, and
    there are no more matches than tables.  The same holds of the
    columns. *)
Theorem search_matches_from_schema (mcp_session : Awaited (list SchemaSearch.Tool))
    (table_query column_query : option string) :
  let outcome :=
    SchemaSearch.search_tables_and_columns ratio mcp_session table_query column_query in
  ((forall e, ~ SchemaSearch.interrupted_at mcp_session e) ->
   exists result, outcome = Completes (Returned result))
  /\ forall result,
       outcome = Completes (Returned result) ->
       SchemaSearch.table_matches result
       = (if SchemaSearch.query_given table_query
          then fuzzy_match ratio (default "" table_query)
                 (SchemaSearch.tables result) default_threshold
          else [])
       /\ SchemaSearch.column_matches result
          = (if SchemaSearch.query_given column_query
             then fuzzy_match ratio (default "" column_query)
                    (SchemaSearch.columns result) default_threshold
             else [])
       /\ (forall m, In m (SchemaSearch.table_matches result) ->
             In (name m) (SchemaSearch.tables result))
       /\ (forall m, In m (SchemaSearch.column_matches result) ->
             In (name m) (SchemaSearch.columns result))
       /\ length (SchemaSearch.table_matches result)
          <= length (SchemaSearch.tables result)
       /\ length (SchemaSearch.column_matches result)
          <= length (SchemaSearch.columns result).
Proof.
  cbv zeta. split.
  - unfold SchemaSearch.interrupted_at.
    search_cases mcp_session table_query column_query;
      intros Hno; first
        [ eexists; reflexivity
        | exfalso; eapply Hno; first
            [ left; reflexivity
            | right; eexists _, _; repeat split; eassumption ] ].
  - intros result Hrun.
    assert (Hboth :
      SchemaSearch.table_matches result
      = (if SchemaSearch.query_given table_query
         then fuzzy_match ratio (default "" table_query)
                (SchemaSearch.tables result) default_threshold
         else [])
      /\ SchemaSearch.column_matches result
         = (if SchemaSearch.query_given column_query
            then fuzzy_match ratio (default "" column_query)
                   (SchemaSearch.columns result) default_threshold
            else [])).
    { revert Hrun.
      search_cases mcp_session table_query column_query;
        intros H; first
          [ discriminate H
          | injection H as <-; cbn; split; reflexivity ]. }
    destruct Hboth as [Ht Hc].
    split; [exact Ht |]. split; [exact Hc |].
    rewrite Ht, Hc.
    destruct (SchemaSearch.query_given table_query),
             (SchemaSearch.query_given column_query);
      repeat split;
      try (intros m Hm; first [destruct Hm | eapply fuzzy_match_entry; exact Hm]);
      try apply fuzzy_match_length; simpl; lia.
Qed.

(** X14: when the chosen tool returns a dict, the search returns a result
    whose tables and columns are the values of its keys, and a key that is
    missing leaves an empty list; when no tool qualifies, or the tool raises
    an [Exception], or it returns something that is not a dict, the search
    returns a result in which both lists are empty; and when the invocation
    of the tool is interrupted by an exception that is not an [Exception],
    that exception leaves the search. *)
Theorem search_schema_lists (tools : list SchemaSearch.Tool)
    (table_query column_query : option string) :
  let outcome :=
    SchemaSearch.search_tables_and_columns ratio (Completes (Returned tools))
      table_query column_query in
  let returns := fun (ts cs : list string) =>
    exists result,
      outcome = Completes (Returned result)
      /\ SchemaSearch.tables result = ts /\ SchemaSearch.columns result = cs in
  match SchemaSearch.find_list_tool tools with
  | Some tool =>
      match SchemaSearch.ainvoke tool with
      | Completes (Returned (SchemaSearch.SchemaDict ts cs)) =>
          returns (default [] ts) (default [] cs)
      | Completes (Returned SchemaSearch.SchemaOther) => returns [] []
      | Completes (Raised _) => returns [] []
      | Interrupted e => outcome = Interrupted e
      end
  | None => returns [] []
  end.
Proof.
  cbv zeta.
  unfold SchemaSearch.search_tables_and_columns, SchemaSearch.try_except,
    SchemaSearch.search_body, SchemaSearch.bind, SchemaSearch.await,
    SchemaSearch.print, SchemaSearch.get, SchemaSearch.ret.
  destruct table_query as [[|c1 q1]|], column_query as [[|c2 q2]|];
    (destruct (SchemaSearch.find_list_tool tools) as [tool|];
     [ destruct (SchemaSearch.ainvoke tool) as [[[[[|t ts]|] [[|c cs]|]|] | e1] | e1] | ]);
    cbn; first [reflexivity | eexists; split; [reflexivity |]; cbn; split; reflexivity].
Qed.

End SearchMore.

(** ** ChatSessionStore: titles and descriptions *)

Lemma append_nil_r (s : string) : s +:+ EmptyString = s.
Proof.
  induction s as [|c s IH]; [reflexivity |].
  rewrite append_cons, IH. reflexivity.
Qed.

Lemma length_append (a b : string) :
  String.length (a +:+ b) = String.length a + String.length b.
Proof.
  induction a as [|c a IH]; [reflexivity |].
  rewrite append_cons. simpl. rewrite IH. reflexivity.
Qed.

Lemma take_chars_all (n : nat) (s : string) :
  String.length s <= n -> ChatStore.take_chars n s = s.
Proof.
  revert s. induction n as [|n IH]; intros [|c s] H; simpl in *; try reflexivity.
  - lia.
  - rewrite IH by lia. reflexivity.
Qed.

Lemma take_chars_length (n : nat) (s : string) :
  n <= String.length s -> String.length (ChatStore.take_chars n s) = n.
Proof.
  revert s. induction n as [|n IH]; intros [|c s] H; simpl in *; try reflexivity.
  - lia.
  - rewrite IH by lia. reflexivity.
Qed.

Lemma take_chars_append (n : nat) (a b : string) :
  String.length a = n -> ChatStore.take_chars n (a +:+ b) = a.
Proof.
  revert a. induction n as [|n IH]; intros [|c a] H; try discriminate H.
  - reflexivity.
  - rewrite append_cons. simpl. rewrite IH; [reflexivity | simpl in H; lia].
Qed.

(** X15: the title derived from a message is the message itself when it has
    at most 50 characters, and otherwise its first 50 characters followed by
    three dots; it has at most 53 characters, it begins with the first 50
    characters of the message, and deriving a title from a title gives the
    same title. *)
Theorem session_title_bounds (user_input : string) :
  let t := ChatStore.session_title user_input in
  (String.length user_input <= 50 -> t = user_input)
  /\ (50 < String.length user_input ->
      t = ChatStore.take_chars 50 user_input +:+ "..." /\ String.length t = 53)
  /\ String.length t <= 53
  /\ ChatStore.take_chars 50 t = ChatStore.take_chars 50 user_input
  /\ ChatStore.session_title t = t.
Proof.
  cbv zeta. unfold ChatStore.session_title.
  destruct (50 <? String.length user_input)%nat eqn:E.
  - apply Nat.ltb_lt in E.
    assert (Hlen : String.length (ChatStore.take_chars 50 user_input +:+ "...") = 53).
    { rewrite length_append, take_chars_length by lia. reflexivity. }
    assert (Htake : ChatStore.take_chars 50 (ChatStore.take_chars 50 user_input +:+ "...")
                    = ChatStore.take_chars 50 user_input).
    { apply take_chars_append, take_chars_length. lia. }
    repeat split; try assumption; try lia.
    rewrite Hlen, Htake. reflexivity.
  - apply Nat.ltb_ge in E. rewrite append_nil_r, take_chars_all by exact E.
    repeat split; try lia.
    + apply take_chars_all; exact E.
    + apply Nat.ltb_ge in E. rewrite E, append_nil_r. apply take_chars_all.
      apply Nat.ltb_ge. exact E.
Qed.

(** X16: a tool description of at most 100 characters is kept; a longer one
    becomes its first 100 characters followed by three dots; the result has
    at most 103 characters and truncating it again changes nothing. *)
Theorem truncate_description_bounds (description : string) :
  let d := ChatStore.truncate_description description in
  (String.length description <= 100 -> d = description)
  /\ (100 < String.length description ->
      d = ChatStore.take_chars 100 description +:+ "..." /\ String.length d = 103)
  /\ String.length d <= 103
  /\ ChatStore.truncate_description d = d.
Proof.
  cbv zeta. unfold ChatStore.truncate_description.
  destruct (100 <? String.length description)%nat eqn:E.
  - apply Nat.ltb_lt in E.
    assert (Hlen : String.length (ChatStore.take_chars 100 description +:+ "...") = 103).
    { rewrite length_append, take_chars_length by lia. reflexivity. }
    repeat split; try assumption; try lia.
    rewrite Hlen. simpl Nat.ltb.
    rewrite take_chars_append; [reflexivity |].
    apply take_chars_length. lia.
  - rewrite E. apply Nat.ltb_ge in E. repeat split; try lia.
Qed.

(** ** ChatSessionStore: the dict of sessions *)

Lemma lookup_assign_eq (k : string) (v : ChatStore.ChatSession) (d : ChatStore.Sessions) :
  ChatStore.lookup k (ChatStore.assign k v d) = Some v.
Proof.
  induction d as [|[k' v'] d IH]; simpl.
  - rewrite String.eqb_refl. reflexivity.
  - destruct (String.eqb k k') eqn:E; simpl; rewrite E; [reflexivity | exact IH].
Qed.

Lemma lookup_assign_ne (k k' : string) (v : ChatStore.ChatSession) (d : ChatStore.Sessions) :
  k <> k' -> ChatStore.lookup k' (ChatStore.assign k v d) = ChatStore.lookup k' d.
Proof.
  intros Hne. induction d as [|[k0 v0] d IH]; simpl.
  - apply not_eq_sym, String.eqb_neq in Hne. rewrite Hne. reflexivity.
  - destruct (String.eqb k k0) eqn:E; simpl.
    + apply String.eqb_eq in E. subst k0.
      apply not_eq_sym, String.eqb_neq in Hne. rewrite Hne. reflexivity.
    + rewrite IH. reflexivity.
Qed.

Lemma lookup_remove_eq (k : string) (d : ChatStore.Sessions) :
  ChatStore.lookup k (ChatStore.remove k d) = None.
Proof.
  induction d as [|[k' v'] d IH]; simpl; [reflexivity |].
  destruct (String.eqb k k') eqn:E; simpl; [exact IH | rewrite E; exact IH].
Qed.

Lemma lookup_remove_ne (k k' : string) (d : ChatStore.Sessions) :
  k <> k' -> ChatStore.lookup k' (ChatStore.remove k d) = ChatStore.lookup k' d.
Proof.
  intros Hne. induction d as [|[k0 v0] d IH]; simpl; [reflexivity |].
  destruct (String.eqb k k0) eqn:E; simpl.
  - apply String.eqb_eq in E. subst k0.
    apply not_eq_sym, String.eqb_neq in Hne. rewrite Hne. exact IH.
  - rewrite IH. reflexivity.
Qed.

Lemma lookup_update_eq (k : string) (f : ChatStore.ChatSession -> ChatStore.ChatSession)
    (d : ChatStore.Sessions) :
  ChatStore.lookup k (ChatStore.update k f d) = option_map f (ChatStore.lookup k d).
Proof.
  induction d as [|[k' v'] d IH]; simpl; [reflexivity |].
  destruct (String.eqb k k') eqn:E; simpl; rewrite E; [reflexivity | exact IH].
Qed.

Lemma lookup_update_ne (k k' : string) (f : ChatStore.ChatSession -> ChatStore.ChatSession)
    (d : ChatStore.Sessions) :
  k <> k' -> ChatStore.lookup k' (ChatStore.update k f d) = ChatStore.lookup k' d.
Proof.
  intros Hne. induction d as [|[k0 v0] d IH]; simpl; [reflexivity |].
  destruct (String.eqb k k0) eqn:E; simpl.
  - apply String.eqb_eq in E. subst k0.
    apply not_eq_sym, String.eqb_neq in Hne. rewrite Hne. reflexivity.
  - rewrite IH. reflexivity.
Qed.

(** X17: after a chat is created under an id, fetching that id returns the
    new chat, titled "New Chat", stamped with the time of creation and with
    no message, whatever was stored under the id before; every other id
    fetches what it fetched before. *)
Theorem create_then_get (session_id now : string) (chat_sessions : ChatStore.Sessions) :
  let d := fst (ChatStore.create_new_chat session_id now chat_sessions) in
  snd (ChatStore.create_new_chat session_id now chat_sessions)
    = ChatStore.ReplyId session_id
  /\ ChatStore.get_chat session_id d
     = ChatStore.ReplyChat (ChatStore.mkSession session_id "New Chat" now [])
  /\ forall other, other <> session_id ->
       ChatStore.get_chat other d = ChatStore.get_chat other chat_sessions.
Proof.
  cbv zeta. unfold ChatStore.create_new_chat, ChatStore.get_chat. simpl fst. simpl snd.
  split; [reflexivity |]. split.
  - rewrite lookup_assign_eq. reflexivity.
  - intros other Hne. rewrite lookup_assign_ne by congruence. reflexivity.
Qed.

(** X18: deleting an id that is stored reports success, and fetching it
    afterwards reports that the chat is not found; deleting an id that is not
    stored reports that the chat is not found and leaves the store as it is,
    so a second deletion of the same id always reports not found; in both
    cases every other id fetches what it fetched before. *)
Theorem delete_then_get (session_id : string) (chat_sessions : ChatStore.Sessions) :
  let d := fst (ChatStore.delete_chat session_id chat_sessions) in
  let reply := snd (ChatStore.delete_chat session_id chat_sessions) in
  (ChatStore.contains session_id chat_sessions = true -> reply = ChatStore.ReplySuccess)
  /\ (ChatStore.contains session_id chat_sessions = false ->
      reply = ChatStore.ReplyError "Chat not found" /\ d = chat_sessions)
  /\ ChatStore.get_chat session_id d = ChatStore.ReplyError "Chat not found"
  /\ ChatStore.delete_chat session_id d = (d, ChatStore.ReplyError "Chat not found")
  /\ forall other, other <> session_id ->
       ChatStore.get_chat other d = ChatStore.get_chat other chat_sessions.
Proof.
  cbv zeta. unfold ChatStore.delete_chat, ChatStore.get_chat, ChatStore.contains.
  destruct (ChatStore.lookup session_id chat_sessions) as [chat|] eqn:E; simpl fst; simpl snd.
  - repeat split; try discriminate.
    + rewrite lookup_remove_eq. reflexivity.
    + rewrite lookup_remove_eq. reflexivity.
    + intros other Hne. rewrite lookup_remove_ne by congruence. reflexivity.
  - rewrite E. repeat split; try discriminate.
Qed.

(** ** The chat endpoint *)

(** X19: a turn changes the stored sessions and sends something only for a
    message: choosing a session only changes the session the connection is
    on, data of another type changes nothing, and a message is dropped
    without any effect when its text is blank or missing, or when no session
    (or the empty id) was chosen. *)
Theorem handle_data_ignored (agent : AgentRunner.Agent) (now : string)
    (conn : ChatStore.Connection) :
  (forall session_id,
     ChatStore.handle_data agent now conn (ChatStore.SetSession session_id)
     = ChatStore.mkConnection (ChatStore.chat_sessions conn) session_id
         (ChatStore.sent conn))
  /\ ChatStore.handle_data agent now conn ChatStore.OtherData = conn
  /\ (forall content,
        truthy (strip (default "" content)) = false ->
        ChatStore.handle_data agent now conn (ChatStore.UserMessage content) = conn)
  /\ (forall content,
        ChatStore.current_session_id conn = None
        \/ ChatStore.current_session_id conn = Some "" ->
        ChatStore.handle_data agent now conn (ChatStore.UserMessage content) = conn).
Proof.
  repeat split.
  - intros content H. unfold ChatStore.handle_data. rewrite H.
    destruct (ChatStore.current_session_id conn); reflexivity.
  - intros content [H | H]; unfold ChatStore.handle_data; rewrite H.
    + reflexivity.
    + simpl. rewrite orb_true_r. reflexivity.
Qed.

(** The effect of a turn that handles a message. *)
Lemma handle_message_run (agent : AgentRunner.Agent) (now : string)
    (conn : ChatStore.Connection) (content : option string) (sid : string) :
  ChatStore.current_session_id conn = Some sid ->
  truthy sid = true ->
  truthy (strip (default "" content)) = true ->
  let user_input := strip (default "" content) in
  let response := AgentRunner.run_agent_once agent user_input sid in
  let d := ChatStore.chat_sessions conn in
  let conn' := ChatStore.handle_data agent now conn (ChatStore.UserMessage content) in
  ChatStore.sent conn' = ChatStore.sent conn ++ [ChatStore.SendResponse response]
  /\ ChatStore.current_session_id conn' = Some sid
  /\ (exists chat,
        ChatStore.lookup sid (ChatStore.chat_sessions conn') = Some chat
        /\ ChatStore.messages chat
           = transcript sid d
             ++ [ChatStore.mkChatMessage "user" user_input;
                 ChatStore.mkChatMessage "assistant" response]
        /\ ChatStore.created_at chat
           = match ChatStore.lookup sid d with
             | Some old => ChatStore.created_at old
             | None => now
             end
        /\ ChatStore.title chat
           = match ChatStore.lookup sid d with
             | Some old =>
                 match ChatStore.messages old with
                 | [] => ChatStore.session_title user_input
                 | _ :: _ => ChatStore.title old
                 end
             | None => ChatStore.session_title user_input
             end)
  /\ forall other, other <> sid ->
       ChatStore.lookup other (ChatStore.chat_sessions conn')
       = ChatStore.lookup other (ChatStore.chat_sessions conn).
Proof.
  intros Hcur Hsid Hin. cbv zeta. unfold ChatStore.handle_data.
  rewrite Hcur, Hin, Hsid. simpl orb. cbv iota.
  set (user_input := strip (default "" content)).
  set (response := AgentRunner.run_agent_once agent user_input sid).
  set (d0 := ChatStore.chat_sessions conn).
  set (d1 := if ChatStore.contains sid d0 then d0
             else ChatStore.assign sid
                    (ChatStore.mkSession sid (ChatStore.session_title user_input) now [])
                    d0).
  set (d3 := ChatStore.update sid (ChatStore.append_message "assistant" response)
               (ChatStore.update sid (ChatStore.append_message "user" user_input) d1)).
  assert (H1 : ChatStore.lookup sid d1
               = Some (match ChatStore.lookup sid d0 with
                       | Some old => old
                       | None => ChatStore.mkSession sid
                                   (ChatStore.session_title user_input) now []
                       end)).
  { unfold d1, ChatStore.contains.
    destruct (ChatStore.lookup sid d0) eqn:E; [exact E | apply lookup_assign_eq]. }
  assert (H1' : forall other, other <> sid ->
                  ChatStore.lookup other d1 = ChatStore.lookup other d0).
  { intros other Hne. unfold d1. destruct (ChatStore.contains sid d0); [reflexivity |].
    apply lookup_assign_ne. congruence. }
  assert (H3 : ChatStore.lookup sid d3
               = option_map (ChatStore.append_message "assistant" response)
                   (option_map (ChatStore.append_message "user" user_input)
                      (ChatStore.lookup sid d1))).
  { unfold d3. rewrite !lookup_update_eq. reflexivity. }
  assert (H3' : forall other, other <> sid ->
                  ChatStore.lookup other d3 = ChatStore.lookup other d0).
  { intros other Hne. unfold d3. rewrite !lookup_update_ne by congruence.
    apply H1', Hne. }
  rewrite H1 in H3. simpl in H3.
  assert (Hlen : ChatStore.transcript_length sid d3
                 = length (transcript sid d0) + 2).
  { unfold ChatStore.transcript_length, transcript. rewrite H3. simpl.
    rewrite <- app_assoc, length_app.
    destruct (ChatStore.lookup sid d0); reflexivity. }
  split; [reflexivity |]. split; [reflexivity |]. split.
  - simpl ChatStore.chat_sessions. rewrite Hlen.
    unfold transcript in *.
    destruct (ChatStore.lookup sid d0) as [old|] eqn:E.
    + destruct (ChatStore.messages old) as [|m ms] eqn:Em.
      * simpl Nat.eqb. cbv iota. rewrite lookup_update_eq, H3. simpl.
        eexists. split; [reflexivity |]. simpl. rewrite Em. repeat split.
      * replace (length (m :: ms) + 2 =? 2)%nat with false
          by (symmetry; apply Nat.eqb_neq; simpl; lia).
        rewrite H3. eexists. split; [reflexivity |]. simpl.
        rewrite Em, <- app_assoc. repeat split.
    + simpl Nat.eqb. cbv iota. rewrite lookup_update_eq, H3. simpl.
      eexists. split; [reflexivity |]. repeat split.
  - intros other Hne. simpl ChatStore.chat_sessions.
    destruct (ChatStore.transcript_length sid d3 =? 2)%nat.
    + rewrite lookup_update_ne by congruence. apply H3', Hne.
    + apply H3', Hne.
Qed.

(** X20: a message with a text that is not blank, on a chosen session, adds
    to the transcript of that session the user's trimmed text and then the
    answer of the agent runner, in that order and after what was there, and
    sends that answer; a session that was not stored is created with the
    time of the turn; the title becomes the title derived from the text when
    the transcript was empty and is kept otherwise; the time of creation of
    a stored session is kept, and every other session is untouched. *)
Theorem handle_message_effect (agent : AgentRunner.Agent) (now : string)
    (conn : ChatStore.Connection) (content : option string) (sid : string) :
  ChatStore.current_session_id conn = Some sid ->
  truthy sid = true ->
  truthy (strip (default "" content)) = true ->
  let user_input := strip (default "" content) in
  let response := AgentRunner.run_agent_once agent user_input sid in
  let d := ChatStore.chat_sessions conn in
  let conn' := ChatStore.handle_data agent now conn (ChatStore.UserMessage content) in
  ChatStore.sent conn' = ChatStore.sent conn ++ [ChatStore.SendResponse response]
  /\ ChatStore.current_session_id conn' = Some sid
  /\ (exists chat,
        ChatStore.lookup sid (ChatStore.chat_sessions conn') = Some chat
        /\ ChatStore.messages chat
           = transcript sid d
             ++ [ChatStore.mkChatMessage "user" user_input;
                 ChatStore.mkChatMessage "assistant" response]
        /\ ChatStore.created_at chat
           = match ChatStore.lookup sid d with
             | Some old => ChatStore.created_at old
             | None => now
             end
        /\ ChatStore.title chat
           = match ChatStore.lookup sid d with
             | Some old =>
                 match ChatStore.messages old with
                 | [] => ChatStore.session_title user_input
                 | _ :: _ => ChatStore.title old
                 end
             | None => ChatStore.session_title user_input
             end)
  /\ forall other, other <> sid ->
       ChatStore.lookup other (ChatStore.chat_sessions conn')
       = ChatStore.lookup other (ChatStore.chat_sessions conn).
Proof. apply handle_message_run. Qed.

(** [handle_message_effect] for the first message of a chat created by
    [create_new_chat]. *)
Lemma handle_message_effect_witness :
  let d := fst (ChatStore.create_new_chat "s1" "2024-05-01T10:00:00" []) in
  let conn := ChatStore.mkConnection d (Some "s1") [] in
  let conn' := ChatStore.handle_data polite_agent "2024-05-01T10:05:00" conn
                 (ChatStore.UserMessage (Some "  show sales  ")) in
  ChatStore.sent conn' = [ChatStore.SendResponse "Done."]
  /\ ChatStore.lookup "s1" (ChatStore.chat_sessions conn')
     = Some (ChatStore.mkSession "s1" "show sales" "2024-05-01T10:00:00"
               [ChatStore.mkChatMessage "user" "show sales";
                ChatStore.mkChatMessage "assistant" "Done."]).
Proof.
  intros d conn conn'.
  destruct (handle_message_effect polite_agent "2024-05-01T10:05:00" conn
              (Some "  show sales  ") "s1" eq_refl eq_refl eq_refl)
    as [Hsent [_ [[chat [Hlook [Hmsgs [Hcreated Htitle]]]] _]]].
  split; [exact Hsent |].
  fold conn' in Hlook. rewrite Hlook. f_equal.
  destruct chat as [i t c m]. simpl in Hmsgs, Hcreated, Htitle.
  subst t c m. f_equal.
  vm_compute in Hlook. injection Hlook as <-. reflexivity.
Defined.




(** ** ChatSessionStore: the lists of chats *)

Lemma insert_item_perm (x : ChatStore.ChatItem) (l : list ChatStore.ChatItem) :
  Permutation (ChatStore.insert_item x l) (x :: l).
Proof.
  induction l as [|y l IH]; simpl; [reflexivity |].
  destruct (ChatStore.created_before x y); [| reflexivity].
  rewrite IH. apply perm_swap.
Qed.

Lemma sorted_newest_first_perm (l : list ChatStore.ChatItem) :
  Permutation (ChatStore.sorted_newest_first l) l.
Proof.
  induction l as [|x l IH]; simpl; [reflexivity |].
  rewrite insert_item_perm, IH. reflexivity.
Qed.

Lemma created_before_asym (x y : ChatStore.ChatItem) :
  ChatStore.created_before x y = true -> ChatStore.created_before y x = false.
Proof.
  unfold ChatStore.created_before, String.ltb.
  rewrite (String.compare_antisym (ChatStore.item_created_at x)).
  destruct (String.compare (ChatStore.item_created_at y) (ChatStore.item_created_at x));
    simpl; congruence.
Qed.

Lemma insert_item_sorted (x : ChatStore.ChatItem) (l : list ChatStore.ChatItem) :
  Sorted not_older l -> Sorted not_older (ChatStore.insert_item x l).
Proof.
  induction l as [|y l IH]; simpl; intros Hs.
  - repeat constructor.
  - apply Sorted_inv in Hs. destruct Hs as [Hl Hy].
    destruct (ChatStore.created_before x y) eqn:E.
    + constructor; [apply IH, Hl |].
      destruct l as [|z l]; simpl.
      * constructor. apply created_before_asym, E.
      * destruct (ChatStore.created_before x z).
        -- constructor. apply HdRel_inv in Hy. exact Hy.
        -- constructor. apply created_before_asym, E.
    + constructor; [constructor; assumption |]. constructor. exact E.
Qed.

Lemma sorted_newest_first_sorted (l : list ChatStore.ChatItem) :
  Sorted not_older (ChatStore.sorted_newest_first l).
Proof.
  induction l as [|x l IH]; simpl; [constructor | apply insert_item_sorted, IH].
Qed.

Section ChatLists.

Variable age_days : string -> Z.

(** The lists when the loop of [get_chats] ends: the items of the sessions of
    each age class, in the order of the dict. *)
Lemma place_chats (d : ChatStore.Sessions) (acc : ChatStore.ChatLists) :
  let item := fun e : string * ChatStore.ChatSession => ChatStore.chat_item (fst e) (snd e) in
  let age := fun e : string * ChatStore.ChatSession =>
               age_days (ChatStore.created_at (snd e)) in
  fold_left (ChatStore.place_chat age_days) d acc
  = ChatStore.mkLists
      (ChatStore.today acc
       ++ map item (List.filter (fun e => (age e =? 0)%Z) d))
      (ChatStore.previous_7_days acc
       ++ map item (List.filter (fun e => negb (age e =? 0)%Z && (age e <=? 7)%Z) d))
      (ChatStore.previous_30_days acc
       ++ map item (List.filter (fun e => negb (age e =? 0)%Z && negb (age e <=? 7)%Z
                                          && (age e <=? 30)%Z) d)).
Proof.
  cbv zeta. revert acc. induction d as [|[sid chat] d IH]; intros acc.
  - simpl. rewrite !app_nil_r. destruct acc; reflexivity.
  - simpl fold_left. rewrite IH. unfold ChatStore.place_chat. simpl.
    destruct (age_days (ChatStore.created_at chat) =? 0)%Z; simpl.
    { rewrite <- app_assoc. reflexivity. }
    destruct (age_days (ChatStore.created_at chat) <=? 7)%Z; simpl.
    { rewrite <- app_assoc. reflexivity. }
    destruct (age_days (ChatStore.created_at chat) <=? 30)%Z; simpl.
    { rewrite <- app_assoc. reflexivity. }
    reflexivity.
Qed.

(** X22: a stored chat is listed under today when its age is 0 days, under
    the previous 7 days when its age is not 0 and at most 7 days (a negative
    age included), under the previous 30 days when its age is more than 7 and
    at most 30 days, and nowhere when it is older; what is listed is its id,
    title, time of creation and number of messages; and each list is sorted
    from the newest time of creation to the oldest. *)
Theorem get_chats_buckets (chat_sessions : ChatStore.Sessions) :
  let lists := ChatStore.get_chats age_days chat_sessions in
  let stored := fun item (age_ok : Z -> Prop) =>
    exists sid chat,
      In (sid, chat) chat_sessions
      /\ item = ChatStore.mkItem sid (ChatStore.title chat) (ChatStore.created_at chat)
                  (length (ChatStore.messages chat))
      /\ age_ok (age_days (ChatStore.created_at chat)) in
  (forall item, In item (ChatStore.today lists) <-> stored item (fun a => a = 0%Z))
  /\ (forall item, In item (ChatStore.previous_7_days lists)
        <-> stored item (fun a => a <> 0%Z /\ (a <= 7)%Z))
  /\ (forall item, In item (ChatStore.previous_30_days lists)
        <-> stored item (fun a => (7 < a)%Z /\ (a <= 30)%Z))
  /\ Sorted not_older (ChatStore.today lists)
  /\ Sorted not_older (ChatStore.previous_7_days lists)
  /\ Sorted not_older (ChatStore.previous_30_days lists)
  /\ length (ChatStore.today lists) + length (ChatStore.previous_7_days lists)
     + length (ChatStore.previous_30_days lists) <= length chat_sessions.
Proof.
  cbv zeta. unfold ChatStore.get_chats. rewrite place_chats. simpl.
  assert (Hin : forall (p : string * ChatStore.ChatSession -> bool) item,
            In item (ChatStore.sorted_newest_first
                       (map (fun e => ChatStore.chat_item (fst e) (snd e))
                            (List.filter p chat_sessions)))
            <-> exists sid chat, In (sid, chat) chat_sessions
                  /\ item = ChatStore.chat_item sid chat /\ p (sid, chat) = true).
  { intros p item. split.
    - intros H. apply (Permutation_in _ (sorted_newest_first_perm _)) in H.
      apply in_map_iff in H. destruct H as [[sid chat] [<- H]].
      apply filter_In in H. exists sid, chat. tauto.
    - intros [sid [chat [H1 [-> H2]]]].
      apply (Permutation_in _ (Permutation_sym (sorted_newest_first_perm _))).
      apply in_map_iff. exists (sid, chat). split; [reflexivity |].
      apply filter_In. tauto. }
  split; [| split; [| split; [| split; [| split; [| split]]]]];
    try apply sorted_newest_first_sorted.
  - intros item. rewrite Hin. split; intros [sid [chat [H1 [H2 H3]]]];
      exists sid, chat; (split; [exact H1 |]); (split; [exact H2 |]); simpl in *; lia.
  - intros item. rewrite Hin. split; intros [sid [chat [H1 [H2 H3]]]];
      exists sid, chat; (split; [exact H1 |]); (split; [exact H2 |]); simpl in *; lia.
  - intros item. rewrite Hin. split; intros [sid [chat [H1 [H2 H3]]]];
      exists sid, chat; (split; [exact H1 |]); (split; [exact H2 |]); simpl in *; lia.
  - rewrite !(Permutation_length (sorted_newest_first_perm _)), !length_map.
    clear Hin. induction chat_sessions as [|[sid chat] d IH]; simpl; [lia |].
    destruct (age_days (ChatStore.created_at chat) =? 0)%Z,
             (age_days (ChatStore.created_at chat) <=? 7)%Z,
             (age_days (ChatStore.created_at chat) <=? 30)%Z; simpl; lia.
Qed.

End ChatLists.
